(** * File inspector: a shallow embedding of [app.py]

    The program walks a directory, classifies files as text or binary,
    normalises the text of each text file (long lines are re-wrapped with
    [textwrap.wrap]) and serialises the result in one of eight formats.

    Python strings are sequences of Unicode code points; they are modelled
    as lists of [N].  Library functions the program calls ([str.splitlines],
    [str.expandtabs], [textwrap.wrap], [csv.writer]) are modelled from the
    behaviour of CPython 3.11. *)

From Stdlib Require Import String Ascii.
From Stdlib Require Import List NArith ZArith Lia Bool Permutation.
From Equations Require Import Equations.
Import ListNotations.

Set Implicit Arguments.
Set Warnings "-register-all".
Open Scope list_scope.

(** ** Python strings *)

Definition char := N.
Definition str := list char.

Definition py (s : string) : str :=
  map N_of_ascii (list_ascii_of_string s).

Definition chr_TAB : char := 9%N.
Definition chr_LF : char := 10%N.
Definition chr_VT : char := 11%N.
Definition chr_FF : char := 12%N.
Definition chr_CR : char := 13%N.
Definition chr_SPACE : char := 32%N.
Definition chr_QUOTE : char := 34%N.
Definition chr_COMMA : char := 44%N.
Definition chr_HYPHEN : char := 45%N.
Definition chr_UNDERSCORE : char := 95%N.

Definition mem_char (c : char) (cs : list char) : bool :=
  existsb (N.eqb c) cs.

Fixpoint str_eqb (s t : str) : bool :=
  match s, t with
  | [], [] => true
  | a :: s', b :: t' => N.eqb a b && str_eqb s' t'
  | _, _ => false
  end.

(** [sep.join(parts)] *)
Fixpoint join (sep : str) (parts : list str) : str :=
  match parts with
  | [] => []
  | [p] => p
  | p :: rest => p ++ sep ++ join sep rest
  end.

(** [str.isspace] on one code point: the code points CPython's
    [_PyUnicode_IsWhitespace] accepts. *)
Definition unicode_whitespace : list char :=
  [9; 10; 11; 12; 13; 28; 29; 30; 31; 32; 133; 160; 5760;
   8192; 8193; 8194; 8195; 8196; 8197; 8198; 8199; 8200; 8201; 8202;
   8232; 8233; 8239; 8287; 12288]%N.

Definition isspace (c : char) : bool := mem_char c unicode_whitespace.

(** [s.strip() == ''] *)
Definition strip_is_empty (s : str) : bool := forallb isspace s.

(** Line boundaries of [str.splitlines]. *)
Definition line_boundaries : list char :=
  [10; 13; 11; 12; 28; 29; 30; 133; 8232; 8233]%N.

Definition is_linebreak (c : char) : bool := mem_char c line_boundaries.

(** [text.splitlines()]: the accumulator [cur] holds the current line,
    reversed.  A carriage return followed by a line feed is one boundary;
    no empty line is produced after a final boundary. *)
Fixpoint splitlines_from (cur : str) (s : str) : list str :=
  match s with
  | [] => match cur with [] => [] | _ => [rev cur] end
  | c :: rest =>
      if is_linebreak c then
        rev cur ::
          match rest with
          | d :: rest' =>
              if N.eqb c chr_CR && N.eqb d chr_LF
              then splitlines_from [] rest'
              else splitlines_from [] rest
          | [] => splitlines_from [] rest
          end
      else splitlines_from (c :: cur) rest
  end.

Definition splitlines (s : str) : list str := splitlines_from [] s.

(** [text.expandtabs(tabsize)] with [col] the current column. *)
Fixpoint expandtabs_from (tabsize col : nat) (s : str) : str :=
  match s with
  | [] => []
  | c :: rest =>
      if N.eqb c chr_TAB then
        match tabsize with
        | 0 => expandtabs_from tabsize col rest
        | _ =>
            let incr := tabsize - (col mod tabsize) in
            repeat chr_SPACE incr ++ expandtabs_from tabsize (col + incr) rest
        end
      else
        c :: expandtabs_from tabsize
               (if N.eqb c chr_LF || N.eqb c chr_CR then 0 else S col) rest
  end.

Definition expandtabs (tabsize : nat) (s : str) : str :=
  expandtabs_from tabsize 0 s.

(** ** A backtracking matcher for the regular expressions of [textwrap]

    Only the constructs [wordsep_re] uses are present.  [rmatch r before
    after] lists, in the order a backtracking engine tries them, the
    positions at which a match of [r] starting at the current position can
    end; a position is the pair of the text before it (reversed) and the
    text after it. *)

Inductive regex : Type :=
| RClass (p : char -> bool)                  (* one character of a class *)
| RRepeat (lazy : bool) (min : nat) (p : char -> bool)
                                             (* p{min,}  or  p{min,}? *)
| RSeq (r1 r2 : regex)
| RAlt (r1 r2 : regex)
| ROpt (r : regex)                           (* r? (greedy) *)
| RAhead (r : regex)                         (* (?=r) *)
| RBehind (ps : list (char -> bool))         (* (?<=p1 p2 ... pn) *)
| REnd.                                      (* \Z *)

Definition position : Type := str * str.

(** All ways to read at least [min] characters of class [p], shortest
    first. *)
Fixpoint repeat_ends (p : char -> bool) (min : nat) (before after : str)
  : list position :=
  (match min with 0 => [(before, after)] | S _ => [] end) ++
  match after with
  | c :: rest => if p c then repeat_ends p (pred min) (c :: before) rest else []
  | [] => []
  end.

(** [(?<=p1 ... pn)]: [rps] is the list of classes reversed, matched
    against the reversed text before the position. *)
Fixpoint behind_ok (rps : list (char -> bool)) (before : str) : bool :=
  match rps, before with
  | [], _ => true
  | p :: rps', c :: before' => p c && behind_ok rps' before'
  | _ :: _, [] => false
  end.

Fixpoint rmatch (r : regex) (before after : str) : list position :=
  match r with
  | RClass p =>
      match after with
      | c :: rest => if p c then [(c :: before, rest)] else []
      | [] => []
      end
  | RRepeat lazy min p =>
      let ends := repeat_ends p min before after in
      if lazy then ends else rev ends
  | RSeq r1 r2 =>
      flat_map (fun pos => rmatch r2 (fst pos) (snd pos)) (rmatch r1 before after)
  | RAlt r1 r2 => rmatch r1 before after ++ rmatch r2 before after
  | ROpt r1 => rmatch r1 before after ++ [(before, after)]
  | RAhead r1 =>
      match rmatch r1 before after with
      | [] => []
      | _ :: _ => [(before, after)]
      end
  | RBehind ps => if behind_ok (rev ps) before then [(before, after)] else []
  | REnd => match after with [] => [(before, after)] | _ :: _ => [] end
  end.

(** The first match at the current position, as the matched text and the
    text after it; a match of the empty string counts as no match (the
    patterns below never match the empty string). *)
Definition match_here (r : regex) (before after : str) : option (str * str) :=
  match rmatch r before after with
  | [] => None
  | (_, after') :: _ =>
      let n := length after - length after' in
      match n with
      | 0 => None
      | S _ => Some (firstn n after, skipn n after)
      end
  end.

(** A lower bound on the number of characters a match of [r] reads. *)
Fixpoint min_width (r : regex) : nat :=
  match r with
  | RClass _ => 1
  | RRepeat _ min _ => min
  | RSeq r1 r2 => min_width r1 + min_width r2
  | RAlt r1 r2 => Nat.min (min_width r1) (min_width r2)
  | ROpt _ | RAhead _ | RBehind _ | REnd => 0
  end.

Definition inspect {A : Type} (a : A) : {b : A | a = b} :=
  exist _ a eq_refl.

(** [re.split] for a pattern that is one capturing group: the pieces
    between matches alternate with the matched texts.  [gap] is the piece
    being collected, reversed. *)
Equations? re_split (r : regex) (before gap : str) (s : str) : list str
  by wf (length s) lt :=
  re_split r before gap [] := [rev gap];
  re_split r before gap (c :: rest) with inspect (match_here r before (c :: rest)) => {
    | exist _ (Some (m, s')) Heq :=
        rev gap :: m :: re_split r (rev m ++ before) [] s';
    | exist _ None _ := re_split r (c :: before) (c :: gap) rest }.
Proof.
  - unfold match_here in Heq.
    destruct (rmatch r before (c :: rest)) as [|[b a'] ps]; [discriminate|].
    destruct (length (c :: rest) - length a') eqn:Hn; [discriminate|].
    inversion Heq; subst. rewrite length_skipn. simpl in *. lia.
Qed.

(** ** [textwrap.wrap]

    [str.isalnum] and [str.isdecimal] (the Unicode tables behind the
    classes [\w] and [\d] of the [re] module) are parameters. *)

Section TextWrap.

Variable isalnum : char -> bool.
Variable isdecimal : char -> bool.

(** [textwrap._whitespace] *)
Definition _whitespace : list char :=
  [chr_TAB; chr_LF; chr_VT; chr_FF; chr_CR; chr_SPACE].

Definition re_ws (c : char) : bool := mem_char c _whitespace.
Definition re_nws (c : char) : bool := negb (re_ws c).
Definition re_hyphen (c : char) : bool := N.eqb c chr_HYPHEN.
(** [\w] *)
Definition re_w (c : char) : bool := isalnum c || N.eqb c chr_UNDERSCORE.
(** [word_punct]: a word character or one of ! (33), the double quote (34),
    the apostrophe (39), & (38), . (46), the comma (44), ? (63) *)
Definition re_wp (c : char) : bool :=
  re_w c || mem_char c [33; 34; 39; 38; 46; 44; 63]%N.
(** [letter = [^\d\W]] *)
Definition re_lt (c : char) : bool := negb (isdecimal c) && re_w c.

(** [TextWrapper.wordsep_re], alternative by alternative. *)
Definition wordsep_re : regex :=
  RAlt
    (* any whitespace:  ws+ *)
    (RRepeat false 1 re_ws)
  (RAlt
    (* em-dash between words:  (?<=wp) -{2,} (?=\w) *)
    (RSeq (RBehind [re_wp])
       (RSeq (RRepeat false 2 re_hyphen) (RAhead (RClass re_w))))
    (* word, possibly hyphenated:  nws+? (?: ... ) *)
    (RSeq (RRepeat true 1 re_nws)
       (RAlt
          (* hyphenated word:
             -(?: (?<=lt{2}-) | (?<=lt-lt-)) (?= lt -? lt) *)
          (RSeq (RClass re_hyphen)
             (RSeq
                (RAlt (RBehind [re_lt; re_lt; re_hyphen])
                      (RBehind [re_lt; re_hyphen; re_lt; re_hyphen]))
                (RAhead
                   (RSeq (RClass re_lt)
                      (RSeq (ROpt (RClass re_hyphen)) (RClass re_lt))))))
       (RAlt
          (* end of word:  (?=ws|\Z) *)
          (RAhead (RAlt (RClass re_ws) REnd))
          (* em-dash:  (?<=wp) (?=-{2,}\w) *)
          (RSeq (RBehind [re_wp])
             (RAhead (RSeq (RRepeat false 2 re_hyphen) (RClass re_w)))))))).

(** [TextWrapper._munge_whitespace] with [expand_tabs] and
    [replace_whitespace] set, [tabsize = 8]. *)
Definition _munge_whitespace (text : str) : str :=
  map (fun c => if re_ws c then chr_SPACE else c) (expandtabs 8 text).

(** [TextWrapper._split] with [break_on_hyphens] set. *)
Definition _split (text : str) : list str :=
  filter (fun c => negb (str_eqb c [])) (re_split wordsep_re [] [] text).

Definition _split_chunks (text : str) : list str :=
  _split (_munge_whitespace text).

(** The inner loop of [_wrap_chunks]: chunks are appended to the current
    line while they fit. *)
Fixpoint take_fitting (width : nat) (cur_line : list str) (cur_len : nat)
    (chunks : list str) : list str * nat * list str :=
  match chunks with
  | [] => (cur_line, cur_len, [])
  | c :: rest =>
      let l := length c in
      if cur_len + l <=? width
      then take_fitting width (cur_line ++ [c]) (cur_len + l) rest
      else (cur_line, cur_len, chunks)
  end.

(** [TextWrapper._handle_long_word] with [break_long_words = False]: the
    long word goes on the current line only if the line is empty. *)
Definition _handle_long_word (chunks cur_line : list str)
  : list str * list str :=
  match cur_line, chunks with
  | [], c :: rest => ([c], rest)
  | _, _ => (cur_line, chunks)
  end.

(** [cur_line and cur_line[-1].strip() == ''] then [del cur_line[-1]] *)
Definition drop_trailing_blank (cur_line : list str) : list str :=
  match rev cur_line with
  | c :: _ => if strip_is_empty c then removelast cur_line else cur_line
  | [] => cur_line
  end.

(** One pass of the outer loop of [_wrap_chunks] ([drop_whitespace] set, no
    indent, no [max_lines]): the chunks of the line built, and the chunks
    left. *)
Definition wrap_line (width : nat) (chunks lines : list str)
  : list str * list str :=
  let chunks1 :=
    match chunks, lines with
    | c :: rest, _ :: _ => if strip_is_empty c then rest else chunks
    | _, _ => chunks
    end in
  let '(cur_line, cur_len, chunks2) := take_fitting width [] 0 chunks1 in
  let '(cur_line1, chunks3) :=
    match chunks2 with
    | c :: _ =>
        if width <? length c
        then _handle_long_word chunks2 cur_line
        else (cur_line, chunks2)
    | [] => (cur_line, chunks2)
    end in
  (drop_trailing_blank cur_line1, chunks3).

(** The outer loop of [_wrap_chunks]; every pass removes at least one
    chunk. *)
Equations? wrap_loop (width : nat) (chunks lines : list str) : list str
  by wf (length chunks) lt :=
  wrap_loop width [] lines := lines;
  wrap_loop width (c :: cs) lines with inspect (wrap_line width (c :: cs) lines) => {
    | exist _ (cur_line, rest) Heq :=
        wrap_loop width rest
          match cur_line with
          | [] => lines
          | _ :: _ => lines ++ [concat cur_line]
          end }.
Proof.
  assert (Hfit : forall chunks cl n cl' n' r,
             take_fitting width cl n chunks = (cl', n', r) ->
             length r <= length chunks).
  { induction chunks as [|d ds IH]; simpl; intros cl n cl' n' r H.
    - inversion H; subst; simpl; lia.
    - destruct (n + length d <=? width).
      + apply IH in H. lia.
      + inversion H; subst. simpl; lia. }
  assert (Hgen : forall chunks1 cur rest0,
             length chunks1 <= length (c :: cs) ->
             (let '(cur_line, _, chunks2) := take_fitting width [] 0 chunks1 in
              let '(cur_line1, chunks3) :=
                match chunks2 with
                | d :: _ =>
                    if width <? length d
                    then _handle_long_word chunks2 cur_line
                    else (cur_line, chunks2)
                | [] => (cur_line, chunks2)
                end in
              (drop_trailing_blank cur_line1, chunks3)) = (cur, rest0) ->
             length rest0 < length (c :: cs)).
  { intros chunks1 cur rest0 Hle.
    destruct (take_fitting width [] 0 chunks1) as [[cl n] r] eqn:Hf.
    assert (Hr : r = [] \/ length r < length chunks1 \/
                 (cl = [] /\ exists e es, r = e :: es /\ width < length e)).
    { destruct chunks1 as [|e es]; simpl in Hf.
      - inversion Hf. left; reflexivity.
      - destruct (length e <=? width) eqn:He.
        + apply Hfit in Hf. right; left. simpl. lia.
        + inversion Hf; subst. right; right. split; [reflexivity|].
          exists e, es. split; [reflexivity|]. apply Nat.leb_gt in He. exact He. }
    destruct r as [|d r'].
    - intros H. inversion H; subst. simpl. lia.
    - destruct Hr as [Hr|[Hr|[Hcl (e & es & Hr & Hw)]]]; [discriminate Hr| |].
      + destruct (width <? length d).
        * destruct cl; simpl; intros H; inversion H; subst; simpl in *; lia.
        * intros H; inversion H; subst; simpl in *; lia.
      + inversion Hr; subst. apply Nat.ltb_lt in Hw. rewrite Hw. simpl.
        intros H; inversion H; subst. apply Hfit in Hf. simpl in *. lia. }
  unfold wrap_line in Heq.
  destruct lines as [|l0 ls].
  - apply Hgen in Heq; [exact Heq|lia].
  - destruct (strip_is_empty c).
    + apply Hgen in Heq; [exact Heq|simpl; lia].
    + apply Hgen in Heq; [exact Heq|lia].
Qed.

(** [TextWrapper._wrap_chunks] *)
Definition _wrap_chunks (width : nat) (chunks : list str) : list str :=
  wrap_loop width chunks [].

(** [textwrap.wrap(text, width=width, break_long_words=False)] *)
Definition wrap (text : str) (width : nat) : list str :=
  _wrap_chunks width (_split_chunks text).

(** The body of [read_and_clean] between decoding and the return:
    [for line in text.splitlines(): ...] then the join. *)
Definition clean_lines (text : str) : list str :=
  fold_left
    (fun lines line =>
       if 120 <? length line
       then lines ++ wrap line 120
       else lines ++ [line])
    (splitlines text) [].

Definition normalize (text : str) : str := join [chr_LF] (clean_lines text).

End TextWrap.

(** The tables of [str.isalnum] and [str.isdecimal] restricted to ASCII. *)
Definition ascii_isdecimal (c : char) : bool :=
  (48 <=? c)%N && (c <=? 57)%N.
Definition ascii_isalnum (c : char) : bool :=
  ascii_isdecimal c || ((65 <=? c)%N && (c <=? 90)%N)
  || ((97 <=? c)%N && (c <=? 122)%N).


(** The table of [str.lower] restricted to ASCII. *)
Definition ascii_lower (s : str) : str :=
  map (fun c => if (65 <=? c)%N && (c <=? 90)%N then (c + 32)%N else c) s.

(** ** Numbers as text *)

Fixpoint uint_chars (d : Decimal.uint) : str :=
  match d with
  | Decimal.Nil => []
  | Decimal.D0 d' => 48%N :: uint_chars d'
  | Decimal.D1 d' => 49%N :: uint_chars d'
  | Decimal.D2 d' => 50%N :: uint_chars d'
  | Decimal.D3 d' => 51%N :: uint_chars d'
  | Decimal.D4 d' => 52%N :: uint_chars d'
  | Decimal.D5 d' => 53%N :: uint_chars d'
  | Decimal.D6 d' => 54%N :: uint_chars d'
  | Decimal.D7 d' => 55%N :: uint_chars d'
  | Decimal.D8 d' => 56%N :: uint_chars d'
  | Decimal.D9 d' => 57%N :: uint_chars d'
  end.

Definition str_of_N (n : N) : str := uint_chars (N.to_uint n).

(** [str(z)] for an [int] *)
Definition str_of_Z (z : Z) : str :=
  if (z <? 0)%Z then chr_HYPHEN :: str_of_N (Z.abs_N z)
  else str_of_N (Z.to_N z).

(** The format [.1f] applied to the number [num / den] ([0 < den]): one
    decimal, the exact value rounded to the nearest tenth, ties to even.
    (The minimum width 3 of the format [3.1f] never pads.) *)
Definition format_1f (num den : Z) : str :=
  let a := Z.abs num in
  let q := (a * 10 / den)%Z in
  let r := (a * 10 mod den)%Z in
  let t :=
    if (den <? 2 * r)%Z then (q + 1)%Z
    else if (2 * r =? den)%Z then (if Z.even q then q else q + 1)%Z
    else q in
  (if (num <? 0)%Z then [chr_HYPHEN] else []) ++
  str_of_Z (t / 10) ++ py "." ++ str_of_Z (t mod 10).

(** [float(n)] for an [int]: the nearest number with 53 significant bits,
    ties to the even one; it is a whole number, given here as such.  (The
    conversion raises [OverflowError] from 2^1024 on, far above the size
    of a file.) *)
Definition float_of_int (n : Z) : Z :=
  let a := Z.abs n in
  let shift := (Z.log2 a + 1 - 53)%Z in
  if (shift <=? 0)%Z then n
  else
    let q := (a / 2 ^ shift)%Z in
    let r := (a mod 2 ^ shift)%Z in
    let half := (2 ^ (shift - 1))%Z in
    let q' :=
      if (half <? r)%Z || ((r =? half)%Z && Z.odd q) then (q + 1)%Z else q in
    (Z.sgn n * (q' * 2 ^ shift))%Z.

(** The loop of [human_readable_size]: after [k] divisions by [1024.0]
    the variable [num] holds a float, kept here as the fraction
    [num / den] with [den = 1024^k]; a division of a float by 1024 is
    exact, so the fraction is the value of the Python float. *)
Fixpoint human_readable_size_loop (units : list str) (num den : Z) (suffix : str)
  : str :=
  match units with
  | [] => format_1f num den ++ py "Y" ++ suffix
  | unit :: units' =>
      if (Z.abs num <? 1024 * den)%Z
      then format_1f num den ++ unit ++ suffix
      else human_readable_size_loop units' num (den * 1024) suffix
  end.

(** [human_readable_size(num)] for an [int] (a size in bytes).  The first
    division, [num /= 1024.0], converts the int to a float, and so does
    the format [3.1f] when the loop returns at once; the first comparison,
    made on the int, agrees with the comparison on that float. *)
Definition human_readable_size (num : Z) : str :=
  human_readable_size_loop
    [py ""; py "K"; py "M"; py "G"; py "T"; py "P"; py "E"; py "Z"]
    (float_of_int num) 1 (py "B").

(** ** Exceptions, output and the state of the run

    A Python call either returns a value or raises; [exn] is the text of
    the exception ([str(e)]).  The state threaded through the program is
    what it can change: the lines printed and the output files written
    with [write_text] to the directory [tempfile.gettempdir()] names.
    What an upload leaves under [tempfile.mkdtemp()] is the input of the
    run and is not part of this state. *)

Definition exn : Type := str.

Inductive result (A : Type) : Type :=
| Val (a : A)
| Raise (e : exn).
Arguments Val {A} a.
Arguments Raise {A} e.

Record world : Type := {
  stdout : list str;
  stderr : list str;
  written : list (str * str)    (* path and content, in the order written *)
}.

Definition M (A : Type) : Type := world -> result A * world.

Definition ret {A : Type} (a : A) : M A := fun w => (Val a, w).

Definition bind {A B : Type} (m : M A) (k : A -> M B) : M B :=
  fun w =>
    match m w with
    | (Val a, w') => k a w'
    | (Raise e, w') => (Raise e, w')
    end.

Definition lift {A : Type} (r : result A) : M A := fun w => (r, w).

(** [try: body  except Exception as e: handler e] *)
Definition try_except {A : Type} (body : M A) (handler : exn -> M A) : M A :=
  fun w =>
    match body w with
    | (Val a, w') => (Val a, w')
    | (Raise e, w') => handler e w'
    end.

Definition print (line : str) : M unit :=
  fun w => (Val tt, {| stdout := stdout w ++ [line];
                       stderr := stderr w;
                       written := written w |}).

Definition print_err (line : str) : M unit :=
  fun w => (Val tt, {| stdout := stdout w;
                       stderr := stderr w ++ [line];
                       written := written w |}).

Declare Scope monad_scope.
Delimit Scope monad_scope with monad.
Notation "x <- m ;; k" := (bind m (fun x => k))
  (at level 61, m at next level, right associativity) : monad_scope.
Notation "m ;; k" := (bind m (fun _ => k))
  (at level 61, right associativity) : monad_scope.
Open Scope monad_scope.

(** [for x in items: acc = body acc x] *)
Fixpoint for_each {A S : Type} (items : list A) (acc : S) (body : S -> A -> M S)
  : M S :=
  match items with
  | [] => ret acc
  | x :: rest => acc' <- body acc x ;; for_each rest acc' body
  end.

(** [dict.get] on a dictionary kept as its list of items. *)
Fixpoint dict_get {V : Type} (key : str) (d : list (str * V)) : option V :=
  match d with
  | [] => None
  | (k, v) :: d' => if str_eqb key k then Some v else dict_get key d'
  end.

Fixpoint is_prefix (p s : str) : bool :=
  match p, s with
  | [], _ => true
  | a :: p', b :: s' => N.eqb a b && is_prefix p' s'
  | _ :: _, [] => false
  end.

(** [needle in hay] *)
Fixpoint str_contains (needle hay : str) : bool :=
  is_prefix needle hay ||
  match hay with
  | [] => false
  | _ :: hay' => str_contains needle hay'
  end.

(** [s.count(c)] for a one-character [c] *)
Definition count_char (c : char) (s : str) : nat :=
  length (filter (N.eqb c) s).

(** [s.rfind(c)] as the number of characters before the last [c] *)
Fixpoint rfind (c : char) (s : str) : option nat :=
  match s with
  | [] => None
  | d :: s' =>
      match rfind c s' with
      | Some i => Some (S i)
      | None => if N.eqb d c then Some 0 else None
      end
  end.

Definition os_sep : char := 47%N.

(** [_SYNTAX_MAP] *)
Definition _SYNTAX_MAP : list (str * str) :=
  [(py ".py", py "python"); (py ".js", py "javascript");
   (py ".mjs", py "javascript"); (py ".html", py "html");
   (py ".css", py "css"); (py ".json", py "json");
   (py ".yml", py "yaml"); (py ".yaml", py "yaml");
   (py ".md", py "markdown"); (py ".sh", py "bash");
   (py ".java", py "java"); (py ".c", py "c"); (py ".cpp", py "cpp");
   (py ".h", py "cpp"); (py ".cs", py "csharp"); (py ".php", py "php");
   (py ".rb", py "ruby"); (py ".go", py "go"); (py ".rs", py "rust");
   (py ".swift", py "swift"); (py ".kt", py "kotlin");
   (py ".ts", py "typescript"); (py ".sql", py "sql");
   (py ".xml", py "xml"); (py ".svg", py "xml"); (py ".ini", py "ini");
   (py ".cfg", py "ini"); (py ".toml", py "toml"); (py ".lock", py "json")].

(** ** The file system, the data model and the builders *)

Section Inspector.

(** The type of Python floats (modification times) and [repr] on it. *)
Variable float : Type.
Variable float_repr : float -> str.

(** Unicode tables: [str.isalnum], [str.isdecimal], [str.lower]; the
    decoder of [read_text(encoding='utf-8', errors='replace')];
    [traceback.format_exc]. *)
Variable isalnum : char -> bool.
Variable isdecimal : char -> bool.
Variable lower : str -> str.
Variable decode_utf8 : list Byte.byte -> str.
Variable format_exc : exn -> str.

(** What [os.stat] reports and the program reads. *)
Record stat_result : Type := { st_size : Z; st_mtime : float }.

(** A file-system object as the run finds it, at rest while the run
    lasts: a regular file with its bytes, or a directory with the entries
    the traversal finds in it, in the order [os.scandir] lists them.
    [stat] on the object, and reading a file, may raise [OSError] (a
    broken link, a missing permission).  A directory that cannot be
    listed, and a symbolic link to a directory, which the traversal lists
    and does not enter, have no entries here. *)
Inductive node : Type :=
| File (name : str) (st : result stat_result) (data : result (list Byte.byte))
| Dir (name : str) (st : result stat_result) (children : list node).

Definition node_name (n : node) : str :=
  match n with File name _ _ => name | Dir name _ _ => name end.

Definition node_stat (n : node) : result stat_result :=
  match n with File _ st _ => st | Dir _ st _ => st end.

(** A [pathlib.Path] met during a traversal: the text of the root path,
    the components below the root and the object the path designates. *)
Record Path : Type := {
  anchor : str;
  parts : list str;
  target : node
}.

(** The path of the directory inspected, as the root of a traversal. *)
Definition root_path (text : str) (n : node) : Path :=
  {| anchor := text; parts := []; target := n |}.

(** [p.name] *)
Definition path_name (p : Path) : str := node_name (target p).

(** [str(p.relative_to(root))] *)
Definition relative_str (p : Path) : str :=
  match parts p with
  | [] => py "."
  | _ :: _ => join [os_sep] (parts p)
  end.

(** [str(p)] *)
Definition path_str (p : Path) : str :=
  match parts p with
  | [] => anchor p
  | _ :: _ => anchor p ++ [os_sep] ++ join [os_sep] (parts p)
  end.

(** [p.stat()] *)
Definition stat (p : Path) : M stat_result := lift (node_stat (target p)).

(** [p.is_dir()] and [p.is_file()]: false when [stat] fails, which is
    the answer of pathlib on a missing target or a broken link.  On a
    failure of another kind (a permission refused on the way to the
    object) pathlib raises instead: such an object has no counterpart
    here. *)
Definition is_dir_path (p : Path) : bool :=
  match target p with Dir _ (Val _) _ => true | _ => false end.

Definition is_file (p : Path) : bool :=
  match target p with File _ (Val _) _ => true | _ => false end.

(** [p.suffix] *)
Definition suffix (p : Path) : str :=
  let name := path_name p in
  match rfind 46%N name with
  | Some i => if (0 <? i) && (i <? length name - 1) then skipn i name else []
  | None => []
  end.

(** [with p.open('rb') as f: f.read(n)] *)
Definition read_block (p : Path) (n : nat) : M (list Byte.byte) :=
  match target p with
  | File _ _ (Val bytes) => ret (firstn n bytes)
  | File _ _ (Raise e) => lift (Raise e)
  | Dir _ _ _ => lift (Raise (py "Is a directory"))
  end.

(** [p.read_text(encoding='utf-8', errors='replace')]; the file system
    being at rest, it meets the bytes, or the error, that [read_block]
    met. *)
Definition read_text (p : Path) : M str :=
  match target p with
  | File _ _ (Val bytes) => ret (decode_utf8 bytes)
  | File _ _ (Raise e) => lift (Raise e)
  | Dir _ _ _ => lift (Raise (py "Is a directory"))
  end.

(** [root.rglob('*')] (pathlib of CPython 3.11): the directories below the
    root are visited parent first, and every entry of a visited directory
    is produced.  The traversal is taken to complete: pathlib passes over
    a directory it is refused to list, and an error of another kind while
    a directory is listed, which it lets through, is outside the
    model. *)
Fixpoint iterate_directories (rel : list str) (n : node)
  : list (list str * list node) :=
  match n with
  | File _ _ _ => []
  | Dir _ _ children =>
      (rel, children) ::
      flat_map (fun c => iterate_directories (rel ++ [node_name c]) c) children
  end.

Definition rglob (root : Path) : list Path :=
  flat_map
    (fun '(rel, children) =>
       map (fun c => {| anchor := anchor root;
                        parts := rel ++ [node_name c];
                        target := c |}) children)
    (iterate_directories (parts root) (target root)).

(** *** Classifier *)

Definition is_text_file (path : Path) (blocksize : nat) : M bool :=
  try_except
    (block <- read_block path blocksize ;;
     if existsb (Byte.eqb Byte.x00) block then ret false else ret true)
    (fun _ => ret false).

(** *** Tree builder *)

Record Entry : Type := {
  path : str;
  is_dir : bool;
  name : str;
  size : Z;
  hr_size : str;
  modified : float
}.

Definition build_tree (root : Path) : M (list Entry) :=
  try_except
    (let root_name :=
       match path_name root with
       | [] => py "root_directory"
       | _ :: _ => path_name root
       end in
     st <- stat root ;;
     for_each (rglob root)
       [ {| path := py "."; is_dir := true; name := root_name; size := 0;
            hr_size := human_readable_size 0; modified := st_mtime st |} ]
       (fun tree p =>
          match parts p with
          | [] => ret tree                       (* p == root: continue *)
          | _ :: _ =>
              try_except
                (let rel := relative_str p in
                 st <- stat p ;;
                 ret (tree ++
                      [ {| path := rel; is_dir := is_dir_path p;
                           name := path_name p; size := st_size st;
                           hr_size := human_readable_size (st_size st);
                           modified := st_mtime st |} ]))
                (fun e =>
                   print (py "Skipping " ++ path_str p ++ py ": " ++ e) ;;
                   ret tree)
          end))
    (fun e =>
       print (py "Error building tree: " ++ e) ;;
       print_err (format_exc e) ;;
       ret []).

(** *** Content extractor *)

Record FileRecord : Type := {
  file_path : str;
  content : str;
  syntax : str
}.

Definition read_and_clean (p : Path) : M (option str) :=
  text_file <- is_text_file p 1024 ;;
  if negb text_file then ret None
  else
    try_except
      (text <- read_text p ;;
       ret (Some (normalize isalnum isdecimal text)))
      (fun e => ret (Some (py "Error reading " ++ path_str p ++ py ": " ++ e))).

(** [as_completed] yields the futures in the order the reads complete;
    [completion] is that order, chosen by the scheduler among the
    permutations of the files submitted.  The size of the pool
    ([max_workers]) bears on that order only. *)
Definition build_files (completion : list Path -> list Path) (root : Path)
  : M (list FileRecord) :=
  let all_files := filter is_file (rglob root) in
  for_each (completion all_files) []
    (fun files p =>
       content <- read_and_clean p ;;
       match content with
       | Some content =>
           ret (files ++
                [ {| file_path := relative_str p;
                     content := content;
                     syntax := match dict_get (lower (suffix p)) _SYNTAX_MAP with
                               | Some s => s
                               | None => []
                               end |} ])
       | None => ret files
       end).

(** ** Exporters *)

(** The data handed to [json.dumps] and [yaml.dump]; a dictionary keeps
    its items in insertion order. *)
Inductive value : Type :=
| VBool (b : bool)
| VInt (z : Z)
| VFloat (f : float)
| VStr (s : str)
| VList (items : list value)
| VDict (items : list (str * value)).

(** [json.dumps(obj, indent=indent)] and
    [yaml.dump(obj, sort_keys=False, allow_unicode=True)] *)
Variable json_dumps : option nat -> value -> str.
Variable yaml_dump : value -> str.

(** An Entry and a FileRecord as the dictionaries the builders create. *)
Definition entry_dict (e : Entry) : value :=
  VDict [(py "path", VStr (path e)); (py "is_dir", VBool (is_dir e));
         (py "name", VStr (name e)); (py "size", VInt (size e));
         (py "hr_size", VStr (hr_size e)); (py "modified", VFloat (modified e))].

Definition file_dict (f : FileRecord) : value :=
  VDict [(py "path", VStr (file_path f)); (py "content", VStr (content f));
         (py "syntax", VStr (syntax f))].

(** [s * n] *)
Definition str_times (s : str) (n : nat) : str := concat (repeat s n).

(** [x or default] for strings *)
Definition str_or (s default : str) : str :=
  match s with [] => default | _ :: _ => s end.

Definition export_txt (tree : list Entry) (files : list FileRecord) : str :=
  let parts :=
    match tree with
    | [] => []
    | _ :: _ =>
        py "Directory Structure:" ::
        map (fun e =>
               let indent := str_times (py "    ") (count_char os_sep (path e)) in
               indent ++ name e ++ py " (" ++ hr_size e ++ py "): " ++ path e)
            tree
    end in
  let parts :=
    match files with
    | [] => parts
    | _ :: _ =>
        parts ++
        (chr_LF :: py "File Contents:") ::
        map (fun f =>
               chr_LF :: py "File: " ++ file_path f ++ [chr_LF] ++ content f)
            files
    end in
  str_or (join [chr_LF] parts) (py "No content found").

Definition export_json (tree : list Entry) (files : list FileRecord) : str :=
  json_dumps (Some 2)
    (VDict
       [(py "metadata",
         VDict
           [(py "directory",
             VDict
               [(py "name",
                 VStr match tree with [] => py "" | t :: _ => name t end);
                (py "file_count", VInt (Z.of_nat (length files)));
                (py "directory_count",
                 VInt (fold_left (fun s t => if is_dir t then s + 1 else s)%Z
                                 tree 0%Z))])]);
        (py "structure", VList (map entry_dict tree));
        (py "files", VList (map file_dict files))]).

Definition export_jsonl (tree : list Entry) (files : list FileRecord) : str :=
  let lines :=
    map (fun entry =>
           json_dumps None
             (VDict [(py "type", VStr (py "structure"));
                     (py "data", entry_dict entry)])) tree in
  let lines :=
    lines ++
    map (fun file_entry =>
           json_dumps None
             (VDict [(py "type", VStr (py "content"));
                     (py "data", file_dict file_entry)])) files in
  join [chr_LF] lines.

Definition export_yaml (tree : list Entry) (files : list FileRecord) : str :=
  yaml_dump
    (VDict
       [(py "metadata",
         VDict
           [(py "directory",
             VDict
               [(py "name",
                 VStr match tree with [] => py "" | t :: _ => name t end);
                (py "file_count", VInt (Z.of_nat (length files)));
                (py "directory_count",
                 VInt (fold_left (fun s t => if is_dir t then s + 1 else s)%Z
                                 tree 0%Z))])]);
        (py "structure", VList (map entry_dict tree));
        (py "files", VList (map file_dict files))]).

Definition export_markdown (tree : list Entry) (files : list FileRecord) : str :=
  let md :=
    match tree with
    | [] => []
    | _ :: _ =>
        py "# Directory Structure" ::
        map (fun e =>
               let indent := str_times (py "  ") (count_char os_sep (path e)) in
               indent ++ py "- **" ++ name e ++ py "** (" ++ hr_size e ++
               py "): `" ++ path e ++ py "`")
            tree
    end in
  let md :=
    match files with
    | [] => md
    | _ :: _ =>
        md ++
        (chr_LF :: py "# File Contents") ::
        map (fun f =>
               let lang := str_or (syntax f) (py "text") in
               chr_LF :: py "## " ++ file_path f ++ [chr_LF] ++ py "```" ++ lang ++
               [chr_LF] ++ content f ++ [chr_LF] ++ py "```")
            files
    end in
  str_or (join [chr_LF] md) (py "No content found").

(** *** [csv.writer] (dialect [excel]: minimal quoting, the quote character
    doubled, rows ended by carriage return and line feed) *)

Inductive cell : Type :=
| CStr (s : str)
| CInt (z : Z)
| CFloat (f : float).

Definition cell_text (c : cell) : str :=
  match c with
  | CStr s => s
  | CInt z => str_of_Z z
  | CFloat f => float_repr f
  end.

(** A field is quoted when it holds the delimiter, the quote character or
    a character of the line terminator. *)
Definition csv_special (delimiter c : char) : bool :=
  N.eqb c delimiter || N.eqb c chr_QUOTE || N.eqb c chr_CR || N.eqb c chr_LF.

Definition csv_field (delimiter : char) (field : str) : str :=
  if existsb (csv_special delimiter) field
  then [chr_QUOTE] ++
       flat_map (fun c => if N.eqb c chr_QUOTE then [chr_QUOTE; chr_QUOTE] else [c])
                field ++
       [chr_QUOTE]
  else field.

(** [w.writerow(row)]: the text appended to the output. *)
Definition writerow (delimiter : char) (row : list cell) : str :=
  let record := join [delimiter] (map (fun c => csv_field delimiter (cell_text c)) row) in
  match row, record with
  | _ :: _, [] => [chr_QUOTE; chr_QUOTE]     (* a lone empty field *)
  | _, _ => record
  end ++ [chr_CR; chr_LF].

(** [(content[:200] + '...') if len(content) > 200 else content] *)
Definition excerpt_of (content : str) : str :=
  if 200 <? length content then firstn 200 content ++ py "..." else content.

Definition export_csv (tree : list Entry) (files : list FileRecord) : str :=
  let w := writerow chr_COMMA in
  let out := w [CStr (py "Type"); CStr (py "Path"); CStr (py "Size");
                CStr (py "Modified")] in
  let out :=
    fold_left
      (fun out e =>
         out ++ w [CStr (if is_dir e then py "DIR" else py "FILE");
                   CStr (path e); CInt (size e); CFloat (modified e)])
      tree out in
  match files with
  | [] => out
  | _ :: _ =>
      let out := out ++ w [] in
      let out := out ++ w [CStr (py "File Path"); CStr (py "Content Excerpt")] in
      fold_left
        (fun out f =>
           let excerpt := excerpt_of (content f) in
           out ++ w [CStr (file_path f); CStr excerpt])
        files out
  end.

Definition export_tsv (tree : list Entry) (files : list FileRecord) : str :=
  let w := writerow chr_TAB in
  let out := w [CStr (py "Type"); CStr (py "Path"); CStr (py "Size");
                CStr (py "Modified")] in
  let out :=
    fold_left
      (fun out e =>
         out ++ w [CStr (if is_dir e then py "DIR" else py "FILE");
                   CStr (path e); CInt (size e); CFloat (modified e)])
      tree out in
  match files with
  | [] => out
  | _ :: _ =>
      let out := out ++ w [] in
      let out := out ++ w [CStr (py "File Path"); CStr (py "Content Excerpt")] in
      fold_left
        (fun out f =>
           let excerpt := excerpt_of (content f) in
           out ++ w [CStr (file_path f); CStr excerpt])
        files out
  end.

Definition export_html (tree : list Entry) (files : list FileRecord) : str :=
  let lines :=
    [py "<html><head><meta charset=" ++ [chr_QUOTE] ++ py "utf-8" ++ [chr_QUOTE]
     ++ py "><title>File Inspector Report</title></head><body>"] in
  let lines :=
    lines ++
    [py "<h1>Directory: " ++ match tree with [] => py "" | t :: _ => name t end
     ++ py "</h1>"] in
  let lines :=
    match tree with
    | [] => lines
    | _ :: _ =>
        lines ++ [py "<details open><summary>Structure</summary><pre>"] ++
        map (fun e => path e ++ py " (" ++ hr_size e ++ py ")") tree ++
        [py "</pre></details>"]
    end in
  let lines :=
    match files with
    | [] => lines
    | _ :: _ =>
        lines ++ [py "<details><summary>File Contents</summary>"] ++
        map (fun f => py "<h2>" ++ file_path f ++ py "</h2><pre>" ++ content f
                      ++ py "</pre>") files ++
        [py "</details>"]
    end in
  let lines := lines ++ [py "</body></html>"] in
  join [chr_LF] lines.

Record format : Type := {
  ext : str;
  exporter : list Entry -> list FileRecord -> str;
  desc : str
}.

Definition _FORMATS : list (str * format) :=
  [(py "TXT", {| ext := py "txt"; exporter := export_txt;
                 desc := py "Plain text. Quick & simple." |});
   (py "JSON", {| ext := py "json"; exporter := export_json;
                  desc := py "Structured JSON for APIs." |});
   (py "JSONL", {| ext := py "jsonl"; exporter := export_jsonl;
                   desc := py "JSON Lines for streaming/NDJSON." |});
   (py "YAML", {| ext := py "yaml"; exporter := export_yaml;
                  desc := py "Human-friendly YAML." |});
   (py "Markdown", {| ext := py "md"; exporter := export_markdown;
                      desc := py "Markdown with syntax coloring." |});
   (py "CSV", {| ext := py "csv"; exporter := export_csv;
                 desc := py "CSV for spreadsheets." |});
   (py "TSV", {| ext := py "tsv"; exporter := export_tsv;
                 desc := py "TSV for tab-delimited data." |});
   (py "HTML", {| ext := py "html"; exporter := export_html;
                  desc := py "Interactive HTML report." |})].

(** ** Orchestrator *)

(** What the run finds outside the program: the resolved path
    [Path(local_path).expanduser().resolve()] with the object it
    designates, if any (a local path on which [expanduser] or [resolve]
    itself raises has no counterpart here); the directory
    [tempfile.gettempdir()] names; whether writing a file there raises;
    and what a write that raises leaves behind: nothing when the file
    could not be opened, the file with what reached it (no character,
    when the content cannot be encoded) when it was opened, and so
    created or truncated, before the failure. *)
Record environment : Type := {
  resolve : str -> option (str * node);
  gettempdir : str;
  write_error : str -> str -> option exn;
  write_leaves : str -> str -> option str
}.

(** An uploaded archive, as what [tempfile.mkdtemp] and [extractall]
    leave: the temporary directory (its path and content), or the
    exception raised, in which case what was created under the temporary
    directory before the failure stays there, outside the state of the
    run. *)
Definition upload : Type := result (str * node).

(** [out_path.write_text(content, encoding='utf-8')]: the file is opened
    for writing, which creates or truncates it, then the content is
    encoded and written. *)
Definition write_text (env : environment) (out_path content : str) : M unit :=
  fun w =>
    match write_error env out_path content with
    | Some e =>
        (Raise e,
         match write_leaves env out_path content with
         | Some partial =>
             {| stdout := stdout w; stderr := stderr w;
                written := written w ++ [(out_path, partial)] |}
         | None => w
         end)
    | None =>
        (Val tt, {| stdout := stdout w; stderr := stderr w;
                    written := written w ++ [(out_path, content)] |})
    end.

(** [process_and_save] from the directory check on (lines 269 to 283),
    [root] being the path the source resolved to; [None] stands for a path
    that designates nothing, on which [is_dir()] is false. *)
Definition export_root (env : environment)
    (completion : list Path -> list Path)
    (action fmt : str) (root : option Path) : M (option str * str) :=
  match root with
  | Some root =>
      if negb (is_dir_path root)
      then ret (None, py "Error: Invalid directory")
      else
        tree <- (if str_contains (py "Tree") action
                 then build_tree root else ret []) ;;
        files <- (if str_contains (py "Extract Code") action
                  then build_files completion root else ret []) ;;
        match dict_get fmt _FORMATS with
        | None => ret (None, py "Error: Unknown format " ++ fmt)
        | Some f =>
            let content := exporter f tree files in
            let out_name :=
              str_or (path_name root) (py "output") ++ py "." ++ ext f in
            let out_path := gettempdir env ++ [os_sep] ++ out_name in
            write_text env out_path content ;;
            ret (Some out_path, content)
        end
  | None => ret (None, py "Error: Invalid directory")
  end.

Definition process_and_save (env : environment)
    (completion : list Path -> list Path)
    (source local_path : str) (zip_file : option upload) (action fmt : str)
  : M (option str * str) :=
  try_except
    (if str_eqb source (py "Upload ZIP") then
       match zip_file with
       | None => ret (None, py "Error: no ZIP uploaded")
       | Some archive =>
           tmpdir <- lift archive ;;
           export_root env completion action fmt
             (Some (root_path (fst tmpdir) (snd tmpdir)))
       end
     else
       export_root env completion action fmt
         match resolve env local_path with
         | Some (text, n) => Some (root_path text n)
         | None => None
         end)
    (fun e =>
       ret (None, py "Processing error: " ++ e ++ [chr_LF] ++ format_exc e)).

(** [explain_format] *)
Definition explain_format (fmt : str) : str :=
  match dict_get fmt _FORMATS with
  | Some info => py "**" ++ fmt ++ py " Format**" ++ [chr_LF] ++ desc info
  | None => py "Select a valid format"
  end.

(** ** Notions used in the statements *)

(** The verdict of the classifier, read off the file: text when the file
    can be read and its first 1024 bytes hold no null byte. *)
Definition classified_text (p : Path) : bool :=
  match target p with
  | File _ _ (Val bytes) => negb (existsb (Byte.eqb Byte.x00) (firstn 1024 bytes))
  | _ => false
  end.

(** A name a directory can list: not empty, without separator, and
    neither of the two special entries. *)
Definition valid_name (nm : str) : bool :=
  negb (str_eqb nm []) && negb (mem_char os_sep nm) &&
  negb (str_eqb nm (py ".")) && negb (str_eqb nm (py "..")).

Fixpoint valid_names (n : node) : bool :=
  match n with
  | File _ _ _ => true
  | Dir _ _ children =>
      forallb (fun c => valid_name (node_name c) && valid_names c) children
  end.

(** The document of the JSON and YAML exports in the words of the
    specification: [metadata.directory.{name, file_count,
    directory_count}], [structure] and [files], where [directory_count] is
    the number of entries with [is_dir] true and [name] is the name of the
    first entry, or the empty string. *)
Definition report_document (tree : list Entry) (files : list FileRecord) : value :=
  VDict
    [(py "metadata",
      VDict
        [(py "directory",
          VDict
            [(py "name", VStr (match tree with [] => [] | root :: _ => name root end));
             (py "file_count", VInt (Z.of_nat (length files)));
             (py "directory_count",
              VInt (Z.of_nat (length (filter is_dir tree))))])]);
     (py "structure", VList (map entry_dict tree));
     (py "files", VList (map file_dict files))].

(** [obj[k1][k2]...] on dictionaries *)
Fixpoint value_at (keys : list str) (v : value) : option value :=
  match keys with
  | [] => Some v
  | k :: keys' =>
      match v with
      | VDict items =>
          match dict_get k items with
          | Some v' => value_at keys' v'
          | None => None
          end
      | _ => None
      end
  end.

(** What an item of the exported structure list says of its entry: the
    value under [is_dir], when it is the boolean true, and the string
    under [name]. *)
Definition exported_is_dir (item : value) : bool :=
  match value_at [py "is_dir"] item with
  | Some (VBool true) => true
  | _ => false
  end.

Definition exported_name (item : value) : str :=
  match value_at [py "name"] item with
  | Some (VStr s) => s
  | _ => []
  end.

(** ** Notions used in further statements *)

(** Whether [p.stat()] returns. *)
Definition stat_ok (p : Path) : bool :=
  match node_stat (target p) with Val _ => true | Raise _ => false end.

(** The line [build_tree] prints for an entry it skips. *)
Definition skip_message (p : Path) : str :=
  match node_stat (target p) with
  | Raise e => py "Skipping " ++ path_str p ++ py ": " ++ e
  | Val _ => []
  end.

(** The record [build_files] makes for a file the classifier accepts. *)
Definition record_of (p : Path) : FileRecord :=
  {| file_path := relative_str p;
     content := match target p with
                | File _ _ (Val bytes) =>
                    normalize isalnum isdecimal (decode_utf8 bytes)
                | _ => []
                end;
     syntax := match dict_get (lower (suffix p)) _SYNTAX_MAP with
               | Some s => s
               | None => []
               end |}.

End Inspector.

Arguments VBool {float} b.
Arguments VInt {float} z.
Arguments VFloat {float} f.
Arguments VStr {float} s.
Arguments VList {float} items.
Arguments VDict {float} items.
Arguments CStr {float} s.
Arguments CInt {float} z.
Arguments CFloat {float} f.

(** The names of the eight formats of [_FORMATS]. *)
Definition registered_formats : list str :=
  [py "TXT"; py "JSON"; py "JSONL"; py "YAML"; py "Markdown"; py "CSV";
   py "TSV"; py "HTML"].





(** The characters of a text that are not white space. *)
Definition visible (s : str) : str := filter (fun c => negb (isspace c)) s.

(** A text without its line boundaries, and the lines of a text joined by
    single spaces: two ways to undo a wrapping. *)
Definition without_line_breaks (s : str) : str :=
  filter (fun c => negb (is_linebreak c)) s.

Definition unwrapped (s : str) : str :=
  map (fun c => if N.eqb c chr_LF then chr_SPACE else c) s.

(** Groups of chunks, for the lines that wrapping fills: a group starts
    (ends) solid when its first (last) chunk is not blank; a gap is
    nothing or one blank chunk, which wrapping drops between two lines
    and after the last. *)
Definition starts_solid (group : list str) : bool :=
  match group with
  | c :: _ => negb (strip_is_empty c)
  | [] => false
  end.

Definition ends_solid (group : list str) : bool :=
  match rev group with
  | c :: _ => negb (strip_is_empty c)
  | [] => false
  end.

Definition dropped_gap (gap : list str) : bool :=
  match gap with
  | [] => true
  | [b] => strip_is_empty b
  | _ :: _ :: _ => false
  end.

(** [woven text lines]: [text] is the [lines] in their order, with blank
    strings before, between and after them. *)
Inductive woven : str -> list str -> Prop :=
| woven_end (gap : str) :
    strip_is_empty gap = true -> woven gap []
| woven_line (gap line text : str) (lines : list str) :
    strip_is_empty gap = true ->
    woven text lines ->
    woven (gap ++ line ++ text) (line :: lines).

(** The chunks of single-spaced prose: words that are not blank, with one
    space between two of them. *)
Fixpoint single_spaced (chunks : list str) : bool :=
  match chunks with
  | [] => false
  | [w] => negb (strip_is_empty w)
  | w :: sp :: rest =>
      negb (strip_is_empty w) && str_eqb sp [chr_SPACE] && single_spaced rest
  end.

(** A line whose only white space, of the kind wrapping rewrites, is the
    space: no tab, no other character of [_whitespace]. *)
Definition only_spaces (line : str) : bool :=
  forallb (fun c => negb (re_ws c) || N.eqb c chr_SPACE) line.

(** ** Instances for the examples

    Modification times in whole seconds with their [repr]; bytes below
    128 decoded as ASCII; a traceback text. *)

Definition seconds : Type := Z.
Definition seconds_repr (t : seconds) : str := str_of_Z t ++ py ".0".

Definition ascii_decode (bytes : list Byte.byte) : str :=
  map (fun b => N_of_ascii (ascii_of_byte b)) bytes.

Definition bytes_of (s : string) : list Byte.byte :=
  map byte_of_ascii (list_ascii_of_string s).

Definition traceback_text (e : exn) : str :=
  py "Traceback (most recent call last): " ++ e.

(** A serialiser standing for a library codec in the examples: a tag,
    then the payload; strings carry their length, lists and dictionaries
    are bracketed by [opening] and [closing]. *)
Section Codec.

Variable opening closing : char.

Fixpoint codec_dumps (v : value seconds) : str :=
  match v with
  | VBool b => if b then py "T" else py "F"
  | VInt z => py "i" ++ str_of_Z z ++ py ";"
  | VFloat f => py "f" ++ str_of_Z f ++ py ";"
  | VStr s => py "s" ++ str_of_N (N.of_nat (length s)) ++ py ":" ++ s
  | VList items =>
      py "l" ++ [opening] ++ concat (map codec_dumps items) ++ [closing]
  | VDict items =>
      py "d" ++ [opening] ++
      concat (map (fun kv =>
                     py "s" ++ str_of_N (N.of_nat (length (fst kv))) ++ py ":" ++
                     fst kv ++ codec_dumps (snd kv)) items) ++
      [closing]
  end.

End Codec.

Definition example_json_dumps (indent : option nat) (v : value seconds) : str :=
  codec_dumps 91%N 93%N v.
Definition example_yaml_dump : value seconds -> str := codec_dumps 60%N 62%N.

(** A directory [proj] with a script, a picture (its second byte is
    null), a link whose target is missing and a subdirectory. *)
Definition example_stat (bytes : Z) : result (stat_result seconds) :=
  Val {| st_size := bytes; st_mtime := 1700000000%Z |}.

Definition example_root : node seconds :=
  Dir (py "proj") (example_stat 4096)
    [ File (py "a.py") (example_stat 8) (Val (bytes_of "print(1)"));
      File (py "logo.png") (example_stat 4)
        (Val [Byte.x89; Byte.x00; Byte.x4e; Byte.x47]);
      File (py "gone") (Raise (py "No such file or directory"))
        (Raise (py "No such file or directory"));
      Dir (py "src") (example_stat 4096)
        [ File (py "main.c") (example_stat 13) (Val (bytes_of "int main(){}")) ] ].

Definition example_env : environment seconds :=
  {| resolve := fun local_path =>
       if str_eqb local_path (py "/home/u/proj")
       then Some (py "/home/u/proj", example_root)
       else None;
     gettempdir := py "/tmp";
     write_error := fun _ _ => None;
     write_leaves := fun _ _ => None |}.

Definition empty_world : world :=
  {| stdout := []; stderr := []; written := [] |}.

(** The order in which the reads complete: here the order submitted. *)
Definition in_order (files : list (Path seconds)) : list (Path seconds) := files.

(** The entries and the records of the examples. *)
Definition example_tree : list (Entry seconds) :=
  [ {| path := py "."; is_dir := true; name := py "proj"; size := 0;
       hr_size := py "0.0B"; modified := 1700000000%Z |};
    {| path := py "a.py"; is_dir := false; name := py "a.py"; size := 8;
       hr_size := py "8.0B"; modified := 1700000000%Z |} ].

Definition example_files : list FileRecord :=
  [ {| file_path := py "a.py"; content := py "print(1)"; syntax := py "python" |} ].



(** Lines of the examples: a word of 300 letters; hyphenated parts of 60,
    60 and 120 characters and a part of 60; two words of 100 letters
    three spaces apart. *)
Definition word_line : str := repeat 97%N 300.

Definition hyphen_line : str :=
  repeat 97%N 59 ++ [chr_HYPHEN] ++ repeat 98%N 59 ++ [chr_HYPHEN] ++
  repeat 99%N 119 ++ [chr_HYPHEN] ++ repeat 100%N 60.

Definition spaced_line : str :=
  repeat 120%N 100 ++ repeat chr_SPACE 3 ++ repeat 121%N 100.

(** Two short lines, the first ended by a carriage return and a line
    feed. *)
Definition short_text : str :=
  py "ab" ++ [chr_CR; chr_LF] ++ py "c d" ++ [chr_LF].

(** A line of single-spaced prose, 359 characters. *)
Definition prose_line : str :=
  join [chr_SPACE]
    (concat (repeat [py "lorem"; py "ipsum"; py "dolor"; py "sit"; py "amet,";
                     py "consectetur"] 9)).

(** The run of the examples: the tree of [proj] alone, exported as
    JSON. *)
Definition example_run : result (option str * str) * world :=
  process_and_save seconds_repr ascii_isalnum ascii_isdecimal ascii_lower
    ascii_decode traceback_text example_json_dumps example_yaml_dump
    example_env in_order (py "Local Path") (py "/home/u/proj") None
    (py "Display Tree") (py "JSON") empty_world.

(** The unit letters of [human_readable_size], in order. *)
Definition unit_names : list str :=
  [py ""; py "K"; py "M"; py "G"; py "T"; py "P"; py "E"; py "Z"].

(** A directory whose [stat] fails. *)
Definition unreadable_root : node seconds :=
  Dir (py "vault") (Raise (py "Permission denied")) [].

(** Another order of completion: the last read submitted completes
    first. *)
Definition last_first (files : list (Path seconds)) : list (Path seconds) :=
  rev files.

(** * Properties *)

Section Properties.

Set Default Proof Using "Type".

Variable float : Type.
Variable float_repr : float -> str.
Variable isalnum : char -> bool.
Variable isdecimal : char -> bool.
Variable lower : str -> str.
Variable decode_utf8 : list Byte.byte -> str.
Variable format_exc : exn -> str.
Variable json_dumps : option nat -> value float -> str.
Variable yaml_dump : value float -> str.

(** Propositional steps that do not look at the parameters. *)
Ltac plain_tauto :=
  try clear yaml_dump; try clear json_dumps; try clear format_exc;
  try clear decode_utf8; try clear lower; try clear isdecimal;
  try clear isalnum; try clear float_repr; tauto.

(** ** Classifier *)

Lemma is_text_file_run (p : Path float) (w : world) :
  is_text_file p 1024 w = (Val (classified_text p), w).
Proof.
  unfold is_text_file, classified_text, try_except, bind, read_block.
  generalize 1024; intros n.
  destruct (target p) as [nm st [bytes|e]|nm st children]; try reflexivity.
  unfold ret.
  destruct (existsb (Byte.eqb Byte.x00) (firstn n bytes)); reflexivity.
Qed.

(** C5: [is_text_file] never raises and leaves the state of the run
    unchanged; it answers true exactly when the file can be read and the
    first 1024 bytes read hold no null byte, and false when the prefix
    holds a null byte or the read fails. *)
Theorem is_text_file_contract (p : Path float) (w : world) :
  exists b : bool,
    is_text_file p 1024 w = (Val b, w) /\
    (b = true <->
     exists nm st bytes,
       target p = File nm st (Val bytes) /\
       ~ In Byte.x00 (firstn 1024 bytes)).
Proof.
  exists (classified_text p). split; [apply is_text_file_run|].
  unfold classified_text.
  destruct (target p) as [nm st [bytes|e]|nm st children].
  - rewrite negb_true_iff. split.
    + intros Hnone. exists nm, st, bytes. split; [reflexivity|].
      intros Hin.
      assert (existsb (Byte.eqb Byte.x00) (firstn 1024 bytes) = true); [|congruence].
      apply existsb_exists. exists Byte.x00. split; [exact Hin|reflexivity].
    + intros (nm' & st' & bytes' & Heq & Hnot). inversion Heq; subst.
      destruct (existsb (Byte.eqb Byte.x00) (firstn 1024 bytes')) eqn:Hex; [|reflexivity].
      apply existsb_exists in Hex. destruct Hex as (b & Hin & Hb).
      apply Byte.byte_dec_bl in Hb. subst b. contradiction.
  - split; [discriminate|]. intros (nm' & st' & bytes' & Heq & _). discriminate Heq.
  - split; [discriminate|]. intros (nm' & st' & bytes' & Heq & _). discriminate Heq.
Qed.

(** ** Tree builder *)

Lemma str_eqb_eq (s t : str) : str_eqb s t = true <-> s = t.
Proof.
  revert t. induction s as [|a s IH]; intros [|b t]; simpl;
    try (split; [discriminate|discriminate]); [plain_tauto|].
  rewrite andb_true_iff, N.eqb_eq, IH. split.
  - intros [-> ->]. reflexivity.
  - intros H. inversion H. plain_tauto.
Qed.

Lemma str_eqb_refl (s : str) : str_eqb s s = true.
Proof. apply str_eqb_eq. reflexivity. Qed.

(** A loop whose body never raises and keeps an invariant ends normally
    with the invariant. *)
Lemma for_each_inv {A S : Type} (P : S -> world -> Prop)
    (items : list A) (body : S -> A -> M S) :
  (forall x acc w, In x items -> P acc w ->
     exists acc' w', body acc x w = (Val acc', w') /\ P acc' w') ->
  forall acc w, P acc w ->
    exists acc' w', for_each items acc body w = (Val acc', w') /\ P acc' w'.
Proof.
  induction items as [|x items IH]; intros Hbody acc w HP.
  - exists acc, w. split; [reflexivity|exact HP].
  - destruct (Hbody x acc w (or_introl eq_refl) HP) as (acc1 & w1 & Hrun & HP1).
    destruct (IH (fun y a v Hy => Hbody y a v (or_intror Hy)) acc1 w1 HP1)
      as (acc2 & w2 & Hrest & HP2).
    exists acc2, w2. split; [|exact HP2].
    simpl. unfold bind. rewrite Hrun. exact Hrest.
Qed.

Lemma node_rect_nested (P : node float -> Prop) :
  (forall nm st data, P (File nm st data)) ->
  (forall nm st children, Forall P children -> P (Dir nm st children)) ->
  forall n, P n.
Proof.
  intros HF HD. fix IH 1. intros [nm st data|nm st children].
  - apply HF.
  - apply HD. induction children as [|c cs IHcs]; constructor.
    + apply IH.
    + exact IHcs.
Qed.

(** The entry the builder makes for the root. *)
Lemma build_tree_run (root : Path float) (w : world) :
  exists tree w',
    build_tree format_exc root w = (Val tree, w') /\
    written w' = written w /\
    match node_stat (target root) with
    | Raise _ => tree = []
    | Val st =>
        exists rest,
          tree =
            {| path := py "."; is_dir := true;
               name := str_or (path_name root) (py "root_directory");
               size := 0; hr_size := human_readable_size 0;
               modified := st_mtime st |} :: rest /\
          Forall (fun e => exists p, In p (rglob root) /\ parts p <> [] /\
                                     path e = relative_str p) rest
    end.
Proof.
  unfold build_tree, try_except, bind, stat, lift.
  destruct (node_stat (target root)) as [st|e].
  - set (root_entry := {| path := py "."; is_dir := true;
                          name := match path_name root with
                                  | [] => py "root_directory"
                                  | _ :: _ => path_name root
                                  end;
                          size := 0; hr_size := human_readable_size 0;
                          modified := st_mtime st |}).
    set (body := fun (tree : list (Entry float)) (p : Path float) => _).
    destruct (@for_each_inv _ _
                (fun tree w' =>
                   written w' = written w /\
                   exists rest, tree = root_entry :: rest /\
                     Forall (fun e => exists p, In p (rglob root) /\
                                parts p <> [] /\ path e = relative_str p) rest)
                (rglob root) body) with (acc := [root_entry]) (w := w)
      as (tree & w' & Hrun & Hw & rest & Htree & Hrest).
    + intros p acc w0 Hin (Hw0 & rest & -> & Hrest).
      subst body. cbv beta.
      destruct (parts p) as [|c cs] eqn:Hparts.
      * exists (root_entry :: rest), w0. split; [reflexivity|].
        split; [exact Hw0|]. exists rest. split; [reflexivity|exact Hrest].
      * unfold try_except, bind, stat, lift, ret, print.
        destruct (node_stat (target p)) as [stp|e].
        -- eexists; eexists. split; [reflexivity|]. split; [exact Hw0|].
           eexists. split; [rewrite <- app_comm_cons; reflexivity|].
           apply Forall_app. split; [exact Hrest|]. constructor; [|constructor].
           exists p. split; [exact Hin|]. split; [congruence|reflexivity].
        -- eexists; eexists. split; [reflexivity|]. split; [exact Hw0|].
           exists rest. split; [reflexivity|exact Hrest].
    + split; [reflexivity|]. exists []. split; [reflexivity|constructor].
    + rewrite Hrun. exists tree, w'. split; [reflexivity|]. split; [exact Hw|].
      exists rest. split; [exact Htree|exact Hrest].
  - eexists; eexists. split; [reflexivity|]. split; reflexivity.
Qed.

Lemma valid_name_not_dot (nm : str) :
  valid_name nm = true -> nm <> [] /\ nm <> py "." /\ ~ In os_sep nm.
Proof.
  unfold valid_name. rewrite !andb_true_iff, !negb_true_iff.
  intros [[[H1 H2] H3] _]. repeat split.
  - intros ->. discriminate H1.
  - intros ->. discriminate H3.
  - intros Hin. unfold mem_char in H2.
    assert (existsb (N.eqb os_sep) nm = true); [|congruence].
    apply existsb_exists. exists os_sep. split; [exact Hin|apply N.eqb_refl].
Qed.

Lemma join_names_not_dot (names : list str) :
  names <> [] ->
  Forall (fun nm => valid_name nm = true) names ->
  join [os_sep] names <> py ".".
Proof.
  intros Hne Hvalid. destruct names as [|a [|b rest]]; [congruence| |].
  - simpl. inversion Hvalid; subst. apply valid_name_not_dot; assumption.
  - inversion Hvalid as [|? ? Ha _]; subst.
    apply valid_name_not_dot in Ha. destruct Ha as (Hne' & _ & _).
    change (join [os_sep] (a :: b :: rest))
      with (a ++ [os_sep] ++ join [os_sep] (b :: rest)).
    destruct a as [|x [|y a']]; [congruence| |]; intros H; inversion H.
Qed.

Lemma iterate_directories_valid (n : node float) :
  forall rel,
    Forall (fun nm => valid_name nm = true) rel ->
    valid_names n = true ->
    Forall (fun d => Forall (fun nm => valid_name nm = true) (fst d) /\
                     Forall (fun c => valid_name (node_name c) = true) (snd d))
           (iterate_directories rel n).
Proof.
  induction n as [nm st data|nm st children IH] using node_rect_nested;
    intros rel Hrel Hvalid; simpl.
  - constructor.
  - simpl in Hvalid. rewrite forallb_forall in Hvalid.
    constructor.
    + split; [exact Hrel|]. apply Forall_forall. intros c Hc.
      specialize (Hvalid c Hc). apply andb_true_iff in Hvalid. plain_tauto.
    + apply Forall_flat_map. rewrite Forall_forall in IH |- *.
      intros c Hc. specialize (Hvalid c Hc). apply andb_true_iff in Hvalid.
      apply IH; [exact Hc| |plain_tauto].
      apply Forall_app. split; [exact Hrel|]. constructor; [plain_tauto|constructor].
Qed.

Lemma rglob_relative_not_dot (text : str) (D : node float) (p : Path float) :
  valid_names D = true ->
  In p (rglob (root_path text D)) ->
  relative_str p <> py ".".
Proof.
  intros Hvalid Hin. unfold rglob in Hin. apply in_flat_map in Hin.
  destruct Hin as ([rel children] & Hd & Hp).
  pose proof (iterate_directories_valid D (rel := []) (Forall_nil _) Hvalid) as Hall.
  rewrite Forall_forall in Hall. specialize (Hall _ Hd). simpl in Hall.
  destruct Hall as [Hrel Hchildren].
  apply in_map_iff in Hp. destruct Hp as (c & <- & Hc).
  rewrite Forall_forall in Hchildren. specialize (Hchildren c Hc).
  unfold relative_str. simpl.
  destruct (rel ++ [node_name c]) as [|a l] eqn:Hparts.
  - destruct rel; discriminate Hparts.
  - rewrite <- Hparts. apply join_names_not_dot.
    + destruct rel; discriminate.
    + apply Forall_app. split; [exact Hrel|]. constructor; [exact Hchildren|constructor].
Qed.

(** C4: for every directory [D] (with entries named as a file system
    names them), [build_tree] returns a sequence with exactly one entry
    whose path is ".", and that entry has size 0 and [is_dir] true. *)
Theorem build_tree_one_root_entry (text : str) (D : node float) (w : world) :
  is_dir_path (root_path text D) = true ->
  valid_names D = true ->
  exists tree w',
    build_tree format_exc (root_path text D) w = (Val tree, w') /\
    exists root_entry,
      filter (fun e => str_eqb (path e) (py ".")) tree = [root_entry] /\
      size root_entry = 0%Z /\ is_dir root_entry = true.
Proof.
  intros Hdir Hvalid.
  destruct (build_tree_run (root_path text D) w) as (tree & w' & Hrun & _ & Hshape).
  exists tree, w'. split; [exact Hrun|].
  unfold is_dir_path in Hdir. simpl in Hdir, Hshape.
  destruct D as [nm st data|nm [st|e] children]; try discriminate Hdir.
  simpl in Hshape. destruct Hshape as (rest & -> & Hrest).
  assert (Hnone : filter (fun e => str_eqb (path e) (py ".")) rest = []).
  { clear Hrun.
    induction Hrest as [|e rest (p & Hin & _ & Hpath) _ IH]; [reflexivity|].
    simpl. rewrite IH.
    destruct (str_eqb (path e) (py ".")) eqn:Heq; [|reflexivity].
    apply str_eqb_eq in Heq. rewrite Hpath in Heq.
    exfalso. revert Heq.
    apply rglob_relative_not_dot
      with (text := text) (D := Dir nm (Val st) children); assumption. }
  eexists. split.
  - cbn [filter path]. rewrite str_eqb_refl, Hnone. reflexivity.
  - split; reflexivity.
Qed.

(** ** Content extractor *)

Lemma read_and_clean_run (p : Path float) (w : world) :
  read_and_clean isalnum isdecimal decode_utf8 p w =
  (Val match target p with
       | File _ _ (Val bytes) =>
           if classified_text p
           then Some (normalize isalnum isdecimal (decode_utf8 bytes))
           else None
       | _ => None
       end, w).
Proof.
  unfold read_and_clean, bind. rewrite is_text_file_run.
  unfold classified_text, read_text, try_except, bind, ret, lift.
  destruct (target p) as [nm st [bytes|e]|nm st children]; try reflexivity.
  destruct (negb (existsb (Byte.eqb Byte.x00) (firstn 1024 bytes))); reflexivity.
Qed.

(** The record the extractor makes for a text file. *)
Lemma build_files_loop (items : list (Path float)) :
  forall (acc : list FileRecord) (w : world),
  exists made,
    for_each items acc
      (fun files p =>
         content <- read_and_clean isalnum isdecimal decode_utf8 p ;;
         match content with
         | Some content =>
             ret (files ++
                  [ {| file_path := relative_str p;
                       content := content;
                       syntax := match dict_get (lower (suffix p)) _SYNTAX_MAP with
                                 | Some s => s
                                 | None => []
                                 end |} ])
         | None => ret files
         end) w = (Val (acc ++ made), w) /\
    map file_path made = map (@relative_str float) (filter (@classified_text float) items).
Proof.
  induction items as [|p items IH]; intros acc w.
  - exists []. rewrite app_nil_r. split; reflexivity.
  - cbn [for_each]. unfold bind at 1. unfold bind at 1.
    rewrite read_and_clean_run. cbn [filter].
    unfold classified_text at 1 2.
    destruct (target p) as [nm st [bytes|e]|nm st children].
    + destruct (negb (existsb (Byte.eqb Byte.x00) (firstn 1024 bytes))).
      * unfold ret at 1.
        match goal with
        | |- context [for_each items (acc ++ [?r])] =>
            destruct (IH (acc ++ [r]) w) as (made & Hrun & Hmade);
            exists (r :: made)
        end.
        rewrite Hrun, <- app_assoc. split; [reflexivity|].
        cbn [map file_path]. rewrite Hmade. reflexivity.
      * unfold ret at 1. apply IH.
    + unfold ret at 1. apply IH.
    + unfold ret at 1. apply IH.
Qed.

(** C6: the extractor never raises, and its records are, in completion
    order, those of the files the classifier accepts as text: a file
    whose sampled prefix holds a null byte, or that cannot be read, has no
    record. *)
Theorem build_files_text_only
    (completion : list (Path float) -> list (Path float))
    (root : Path float) (w : world) :
  (forall l, Permutation (completion l) l) ->
  exists files,
    build_files isalnum isdecimal lower decode_utf8 completion root w
      = (Val files, w) /\
    map file_path files =
      map (@relative_str float)
          (filter (@classified_text float)
                  (completion (filter (@is_file float) (rglob root)))) /\
    forall r, In r files ->
      exists p, In p (rglob root) /\ is_file p = true /\
                classified_text p = true /\ file_path r = relative_str p.
Proof.
  intros Hperm. unfold build_files.
  destruct (build_files_loop (completion (filter (@is_file float) (rglob root))) [] w)
    as (made & Hrun & Hmade).
  exists made. split; [exact Hrun|]. split; [exact Hmade|].
  intros r Hr.
  apply (in_map file_path) in Hr. rewrite Hmade in Hr.
  apply in_map_iff in Hr. destruct Hr as (p & Hp & Hin).
  apply filter_In in Hin. destruct Hin as [Hin Htext].
  apply (Permutation_in _ (Hperm _)) in Hin.
  apply filter_In in Hin. destruct Hin as [Hin Hfile].
  exists p. repeat split; try assumption. symmetry; exact Hp.
Qed.

(** ** Exporters: the JSON and YAML document *)

Lemma directory_count_fold (tree : list (Entry float)) :
  forall acc : Z,
    fold_left (fun s t => if is_dir t then (s + 1)%Z else s) tree acc =
    (acc + Z.of_nat (length (filter (@is_dir float) tree)))%Z.
Proof.
  induction tree as [|t tree IH]; intros acc; simpl.
  - lia.
  - rewrite IH. destruct (is_dir t); simpl length; lia.
Qed.

Lemma export_json_document (tree : list (Entry float)) (files : list FileRecord) :
  export_json json_dumps tree files =
  json_dumps (Some 2) (report_document tree files).
Proof.
  unfold export_json, report_document. rewrite directory_count_fold.
  destruct tree; reflexivity.
Qed.

Lemma export_yaml_document (tree : list (Entry float)) (files : list FileRecord) :
  export_yaml yaml_dump tree files = yaml_dump (report_document tree files).
Proof.
  unfold export_yaml, report_document. rewrite directory_count_fold.
  destruct tree; reflexivity.
Qed.

(** C8: in the document of the JSON export and of the YAML export,
    [metadata.directory.directory_count] is the number of items of the
    structure list whose [is_dir] is true and [metadata.directory.name]
    is the [name] of the first item, the empty string for an empty
    structure list; the items are the entries of the tree, one dictionary
    each with its [path], [is_dir] and [name]; the first entry of a tree
    the builder returns is the root entry. *)
Theorem directory_count_and_name (tree : list (Entry float)) (files : list FileRecord) :
  export_json json_dumps tree files
    = json_dumps (Some 2) (report_document tree files) /\
  export_yaml yaml_dump tree files = yaml_dump (report_document tree files) /\
  (exists items,
     value_at [py "structure"] (report_document tree files) = Some (VList items) /\
     Forall2 (fun e item =>
                value_at [py "path"] item = Some (VStr (path e)) /\
                value_at [py "is_dir"] item = Some (VBool (is_dir e)) /\
                value_at [py "name"] item = Some (VStr (name e)))
             tree items /\
     value_at [py "metadata"; py "directory"; py "directory_count"]
              (report_document tree files)
       = Some (VInt (Z.of_nat (length (filter (@exported_is_dir float) items)))) /\
     value_at [py "metadata"; py "directory"; py "name"] (report_document tree files)
       = Some (VStr match items with
                    | [] => py ""
                    | first :: _ => exported_name first
                    end)) /\
  value_at [py "structure"] (report_document tree files)
    = Some (VList (map (@entry_dict float) tree)) /\
  value_at [py "metadata"; py "directory"; py "directory_count"]
           (report_document tree files)
    = Some (VInt (Z.of_nat (length (filter (@is_dir float) tree)))) /\
  value_at [py "metadata"; py "directory"; py "name"] (report_document tree files)
    = Some (VStr match tree with [] => py "" | root :: _ => name root end) /\
  forall (root : Path float) (w : world),
    exists built w',
      build_tree format_exc root w = (Val built, w') /\
      (built = [] \/
       exists root_entry rest,
         built = root_entry :: rest /\ path root_entry = py "." /\
         name root_entry = str_or (path_name root) (py "root_directory") /\
         exists first items,
           value_at [py "structure"] (report_document built files)
             = Some (VList (first :: items)) /\
           value_at [py "path"] first = Some (VStr (py ".")) /\
           exported_name first = str_or (path_name root) (py "root_directory")).
Proof.
  split; [apply export_json_document|].
  split; [apply export_yaml_document|].
  split.
  { exists (map (@entry_dict float) tree).
    split; [reflexivity|]. split; [|split].
    - induction tree as [|e tree IH]; constructor; [|exact IH].
      split; [|split]; reflexivity.
    - change (value_at [py "metadata"; py "directory"; py "directory_count"]
                (report_document tree files))
        with (Some (@VInt float (Z.of_nat (length (filter (@is_dir float) tree))))).
      do 3 f_equal.
      induction tree as [|e tree IH]; [reflexivity|].
      cbn [map filter].
      change (exported_is_dir (entry_dict e))
        with (if is_dir e then true else false).
      destruct (is_dir e); cbn [length]; rewrite IH; reflexivity.
    - destruct tree; reflexivity. }
  split; [reflexivity|]. split; [reflexivity|]. split; [reflexivity|].
  intros root w.
  destruct (build_tree_run root w) as (built & w' & Hrun & _ & Hshape).
  exists built, w'. split; [exact Hrun|].
  destruct (node_stat (target root)) as [st|e].
  - right. destruct Hshape as (rest & -> & _).
    eexists; eexists. split; [reflexivity|]. split; [reflexivity|].
    split; [reflexivity|].
    eexists; eexists. split; [reflexivity|]. split; reflexivity.
  - left. exact Hshape.
Qed.

(** ** Orchestrator *)

Lemma build_files_run (completion : list (Path float) -> list (Path float))
    (root : Path float) (w : world) :
  exists files,
    build_files isalnum isdecimal lower decode_utf8 completion root w
      = (Val files, w).
Proof.
  unfold build_files.
  destruct (build_files_loop (completion (filter (@is_file float) (rglob root))) [] w)
    as (made & Hrun & _).
  exists made. exact Hrun.
Qed.

(** Every run of the orchestrator returns; it either reports an error,
    having written nothing unless it is the write of the export that
    failed, or writes the export of the tree and the files built. *)
Lemma process_and_save_cases (env : environment float)
    (completion : list (Path float) -> list (Path float))
    (source local_path : str) (zip_file : option (upload float))
    (action fmt : str) (w : world) :
  exists (res : option str * str) (w' : world),
    process_and_save float_repr isalnum isdecimal lower decode_utf8 format_exc
      json_dumps yaml_dump env completion source local_path zip_file action fmt w
      = (Val res, w') /\
    match fst res with
    | None =>
        (written w' = written w \/
         exists f out_path content e partial,
           dict_get fmt (_FORMATS float_repr json_dumps yaml_dump) = Some f /\
           write_error env out_path content = Some e /\
           write_leaves env out_path content = Some partial /\
           written w' = written w ++ [(out_path, partial)]) /\
        (is_prefix (py "Error: ") (snd res) ||
         is_prefix (py "Processing error: ") (snd res)) = true
    | Some out_path =>
        exists f tree files,
          dict_get fmt (_FORMATS float_repr json_dumps yaml_dump) = Some f /\
          snd res = exporter f tree files /\
          (str_contains (py "Extract Code") action = false -> files = []) /\
          written w' = written w ++ [(out_path, snd res)]
    end.
Proof.
  unfold process_and_save, try_except.
  set (run := export_root float_repr isalnum isdecimal lower decode_utf8
                format_exc json_dumps yaml_dump env completion action fmt).
  set (failed := fun w' : world =>
         written w' = written w \/
         exists f out_path content e partial,
           dict_get fmt (_FORMATS float_repr json_dumps yaml_dump) = Some f /\
           write_error env out_path content = Some e /\
           write_leaves env out_path content = Some partial /\
           written w' = written w ++ [(out_path, partial)]).
  set (outcome := fun (v : result (option str * str)) (w' : world) =>
         match v with
         | Raise e => failed w'
         | Val res =>
             match fst res with
             | None =>
                 failed w' /\
                 (is_prefix (py "Error: ") (snd res) ||
                  is_prefix (py "Processing error: ") (snd res)) = true
             | Some out_path =>
                 exists f tree files,
                   dict_get fmt (_FORMATS float_repr json_dumps yaml_dump) = Some f /\
                   snd res = exporter f tree files /\
                   (str_contains (py "Extract Code") action = false -> files = []) /\
                   written w' = written w ++ [(out_path, snd res)]
             end
         end).
  assert (Hrun : forall root w0,
             written w0 = written w ->
             exists v w', run root w0 = (v, w') /\ outcome v w').
  { intros [root|] w0 Hw0; subst run; unfold export_root.
    - destruct (negb (is_dir_path root)).
      + eexists; eexists. split; [reflexivity|].
        split; [left; exact Hw0|reflexivity].
      + unfold bind at 1.
        assert (Htree : exists tree w1,
                   (if str_contains (py "Tree") action
                    then build_tree format_exc root else ret []) w0 = (Val tree, w1) /\
                   written w1 = written w).
        { destruct (str_contains (py "Tree") action).
          - destruct (build_tree_run root w0) as (tree & w1 & H1 & H2 & _).
            exists tree, w1. split; [exact H1|congruence].
          - exists [], w0. split; [reflexivity|exact Hw0]. }
        destruct Htree as (tree & w1 & -> & Hw1).
        unfold bind at 1.
        assert (Hfiles : exists files,
                   (if str_contains (py "Extract Code") action
                    then build_files isalnum isdecimal lower decode_utf8 completion root
                    else ret []) w1 = (Val files, w1) /\
                   (str_contains (py "Extract Code") action = false -> files = [])).
        { destruct (str_contains (py "Extract Code") action).
          - destruct (build_files_run completion root w1) as (files & H1).
            exists files. split; [exact H1|discriminate].
          - exists []. split; reflexivity. }
        destruct Hfiles as (files & -> & Hnone).
        destruct (dict_get fmt (_FORMATS float_repr json_dumps yaml_dump)) as [f|] eqn:Hfmt.
        * unfold bind, write_text.
          destruct (write_error env _ _) as [e|] eqn:Herror.
          -- destruct (write_leaves env _ _) as [partial|] eqn:Hleft.
             ++ eexists; eexists. split; [reflexivity|].
                right. exists f. do 4 eexists.
                split; [reflexivity|]. split; [exact Herror|].
                split; [exact Hleft|]. cbn [written]. rewrite Hw1. reflexivity.
             ++ eexists; eexists. split; [reflexivity|]. left. exact Hw1.
          -- eexists; eexists. split; [reflexivity|]. cbn [outcome fst snd written].
             exists f, tree, files. repeat split; try assumption.
             rewrite Hw1. reflexivity.
        * eexists; eexists. split; [reflexivity|].
          split; [left; exact Hw1|reflexivity].
    - eexists; eexists. split; [reflexivity|].
      split; [left; exact Hw0|reflexivity]. }
  assert (Hfinish : forall (body : M (option str * str)),
             (exists v w', body w = (v, w') /\ outcome v w') ->
             exists res w',
               match body w with
               | (Val a, w') => (Val a, w')
               | (Raise e, w') =>
                   ret (None, py "Processing error: " ++ e ++ [chr_LF] ++ format_exc e) w'
               end = (Val res, w') /\ outcome (Val res) w').
  { intros body (v & w' & -> & Hv). destruct v as [res|e].
    - exists res, w'. split; [reflexivity|exact Hv].
    - eexists; eexists. split; [reflexivity|]. split; [exact Hv|reflexivity]. }
  apply Hfinish.
  destruct (str_eqb source (py "Upload ZIP")).
  - destruct zip_file as [[tmpdir|e]|].
    + unfold bind, lift. apply Hrun. reflexivity.
    + eexists; eexists. split; [reflexivity|]. left. reflexivity.
    + eexists; eexists. split; [reflexivity|]. split; [left; reflexivity|reflexivity].
  - apply Hrun. reflexivity.
Qed.

Lemma dict_get_absent {V : Type} (key : str) (d : list (str * V)) :
  ~ In key (map fst d) -> dict_get key d = None.
Proof.
  induction d as [|[k v] d IH]; simpl; intros Hnot; [reflexivity|].
  destruct (str_eqb key k) eqn:Heq.
  - apply str_eqb_eq in Heq. subst k. plain_tauto.
  - apply IH. plain_tauto.
Qed.

Lemma formats_registered :
  map fst (_FORMATS float_repr json_dumps yaml_dump) = registered_formats.
Proof. reflexivity. Qed.

(** C9: with a format name that is not one of the eight registered
    formats, the orchestrator returns an error result, no file path and an
    error text, and writes no output file; when the source is a local path
    that resolves to a directory the text names the unknown format. *)
Theorem unknown_format_is_error (env : environment float)
    (completion : list (Path float) -> list (Path float))
    (source local_path : str) (zip_file : option (upload float))
    (action fmt : str) (w : world) :
  ~ In fmt registered_formats ->
  exists (msg : str) (w' : world),
    process_and_save float_repr isalnum isdecimal lower decode_utf8 format_exc
      json_dumps yaml_dump env completion source local_path zip_file action fmt w
      = (Val (None, msg), w') /\
    written w' = written w /\
    (is_prefix (py "Error: ") msg || is_prefix (py "Processing error: ") msg) = true /\
    (str_eqb source (py "Upload ZIP") = false ->
     forall text D,
       resolve env local_path = Some (text, D) ->
       is_dir_path (root_path text D) = true ->
       msg = py "Error: Unknown format " ++ fmt).
Proof.
  intros Hunknown.
  assert (Hfmt : dict_get fmt (_FORMATS float_repr json_dumps yaml_dump) = None).
  { apply dict_get_absent. rewrite formats_registered. exact Hunknown. }
  destruct (process_and_save_cases env completion source local_path zip_file
              action fmt w) as ([out msg] & w' & Hrun & Hres).
  cbn [fst snd] in Hres. destruct out as [out_path|].
  - destruct Hres as (f & _ & _ & Hsome & _). congruence.
  - destruct Hres as [[Hw|(f & _ & _ & _ & _ & Hsome & _)] Hmsg]; [|congruence].
    exists msg, w'. split; [exact Hrun|]. split; [exact Hw|]. split; [exact Hmsg|].
    intros Hsource text D Hresolve Hdir.
    revert Hrun. unfold process_and_save, try_except.
    rewrite Hsource, Hresolve. unfold export_root. rewrite Hdir. cbn [negb].
    unfold bind at 1.
    assert (Htree : exists tree w1,
               (if str_contains (py "Tree") action
                then build_tree format_exc (root_path text D) else ret []) w
               = (Val tree, w1)).
    { destruct (str_contains (py "Tree") action).
      - destruct (build_tree_run (root_path text D) w) as (tree & w1 & H1 & _).
        exists tree, w1. exact H1.
      - exists [], w. reflexivity. }
    destruct Htree as (tree & w1 & ->).
    unfold bind at 1.
    assert (Hfiles : exists files,
               (if str_contains (py "Extract Code") action
                then build_files isalnum isdecimal lower decode_utf8 completion
                       (root_path text D)
                else ret []) w1 = (Val files, w1)).
    { destruct (str_contains (py "Extract Code") action).
      - apply build_files_run.
      - exists []. reflexivity. }
    destruct Hfiles as (files & ->).
    rewrite Hfmt. unfold ret. intros H. inversion H. reflexivity.
Qed.

Lemma formats_json :
  dict_get (py "JSON") (_FORMATS float_repr json_dumps yaml_dump) =
  Some {| ext := py "json"; exporter := export_json json_dumps;
          desc := py "Structured JSON for APIs." |}.
Proof. reflexivity. Qed.

Lemma formats_yaml :
  dict_get (py "YAML") (_FORMATS float_repr json_dumps yaml_dump) =
  Some {| ext := py "yaml"; exporter := export_yaml yaml_dump;
          desc := py "Human-friendly YAML." |}.
Proof. reflexivity. Qed.

(** C10: [metadata.directory.file_count] in the document of the JSON and
    YAML exports is the length of the files sequence handed to the
    exporter, whatever the tree; a run whose action does not extract
    content exports a document with [file_count] 0. *)
Theorem file_count_is_files_length :
  (forall (tree : list (Entry float)) (files : list FileRecord),
     export_json json_dumps tree files
       = json_dumps (Some 2) (report_document tree files) /\
     export_yaml yaml_dump tree files = yaml_dump (report_document tree files) /\
     value_at [py "metadata"; py "directory"; py "file_count"]
              (report_document tree files)
       = Some (VInt (Z.of_nat (length files)))) /\
  (forall (env : environment float)
          (completion : list (Path float) -> list (Path float))
          (source local_path : str) (zip_file : option (upload float))
          (action : str) (w w' : world) (out_path content : str),
     str_contains (py "Extract Code") action = false ->
     process_and_save float_repr isalnum isdecimal lower decode_utf8 format_exc
       json_dumps yaml_dump env completion source local_path zip_file action
       (py "JSON") w = (Val (Some out_path, content), w') ->
     exists tree : list (Entry float),
       content = json_dumps (Some 2) (report_document tree []) /\
       value_at [py "metadata"; py "directory"; py "file_count"]
                (report_document tree [])
         = Some (VInt 0)) /\
  (forall (env : environment float)
          (completion : list (Path float) -> list (Path float))
          (source local_path : str) (zip_file : option (upload float))
          (action : str) (w w' : world) (out_path content : str),
     str_contains (py "Extract Code") action = false ->
     process_and_save float_repr isalnum isdecimal lower decode_utf8 format_exc
       json_dumps yaml_dump env completion source local_path zip_file action
       (py "YAML") w = (Val (Some out_path, content), w') ->
     exists tree : list (Entry float),
       content = yaml_dump (report_document tree []) /\
       value_at [py "metadata"; py "directory"; py "file_count"]
                (report_document tree [])
         = Some (VInt 0)).
Proof.
  split; [|split].
  - intros tree files.
    split; [apply export_json_document|].
    split; [apply export_yaml_document|reflexivity].
  - intros env completion source local_path zip_file action w w' out_path content
      Hno Hrun.
    destruct (process_and_save_cases env completion source local_path zip_file
                action (py "JSON") w) as (res & w1 & Hrun1 & Hres).
    rewrite Hrun in Hrun1. inversion Hrun1; subst res w1. cbn [fst snd] in Hres.
    destruct Hres as (f & tree & files & Hf & Hcontent & Hfiles & _).
    rewrite formats_json in Hf. inversion Hf; subst f.
    rewrite (Hfiles Hno) in Hcontent. cbn [exporter] in Hcontent.
    exists tree. split; [|reflexivity].
    rewrite Hcontent. apply export_json_document.
  - intros env completion source local_path zip_file action w w' out_path content
      Hno Hrun.
    destruct (process_and_save_cases env completion source local_path zip_file
                action (py "YAML") w) as (res & w1 & Hrun1 & Hres).
    rewrite Hrun in Hrun1. inversion Hrun1; subst res w1. cbn [fst snd] in Hres.
    destruct Hres as (f & tree & files & Hf & Hcontent & Hfiles & _).
    rewrite formats_yaml in Hf. inversion Hf; subst f.
    rewrite (Hfiles Hno) in Hcontent. cbn [exporter] in Hcontent.
    exists tree. split; [|reflexivity].
    rewrite Hcontent. apply export_yaml_document.
Qed.

(** ** Exporters: CSV and TSV *)












(** ** Normalisation of long lines *)

Lemma repeat_ends_reads (p : char -> bool) (min : nat) (after : str) :
  forall before pos,
    In pos (repeat_ends p min before after) ->
    exists read,
      after = read ++ snd pos /\ fst pos = rev read ++ before /\
      min <= length read.
Proof.
  revert min. induction after as [|c rest IH]; intros min before pos Hin.
  - simpl in Hin. rewrite app_nil_r in Hin.
    destruct min; [|contradiction].
    destruct Hin as [<-|[]]. exists []. repeat split. simpl. lia.
  - simpl in Hin. apply in_app_or in Hin. destruct Hin as [Hin|Hin].
    + destruct min; [|contradiction].
      destruct Hin as [<-|[]]. exists []. repeat split. simpl. lia.
    + destruct (p c); [|contradiction].
      apply IH in Hin. destruct Hin as (read & Hafter & Hbefore & Hmin).
      exists (c :: read). split; [simpl; rewrite <- Hafter; reflexivity|].
      split; [simpl; rewrite <- app_assoc; exact Hbefore|].
      simpl. lia.
Qed.

(** Every end the matcher lists is a position of the text, at least
    [min_width] characters on. *)
Lemma rmatch_reads (r : regex) :
  forall before after pos,
    In pos (rmatch r before after) ->
    exists read,
      after = read ++ snd pos /\ fst pos = rev read ++ before /\
      min_width r <= length read.
Proof.
  induction r as [p|lazy min p|r1 IH1 r2 IH2|r1 IH1 r2 IH2|r1 IH1|r1 IH1|ps|];
    intros before after pos Hin; cbn [rmatch min_width] in *.
  - destruct after as [|c rest]; [contradiction|].
    destruct (p c); [|contradiction]. destruct Hin as [<-|[]].
    exists [c]. repeat split. simpl. lia.
  - apply (@repeat_ends_reads p min after before pos).
    destruct lazy; [exact Hin|]. apply in_rev in Hin. exact Hin.
  - apply in_flat_map in Hin. destruct Hin as (mid & Hmid & Hin).
    apply IH1 in Hmid. destruct Hmid as (read1 & Ha1 & Hb1 & Hm1).
    apply IH2 in Hin. destruct Hin as (read2 & Ha2 & Hb2 & Hm2).
    exists (read1 ++ read2).
    split; [rewrite <- app_assoc, <- Ha2; exact Ha1|].
    split; [rewrite rev_app_distr, <- app_assoc, <- Hb1; exact Hb2|].
    rewrite length_app. lia.
  - apply in_app_or in Hin. destruct Hin as [Hin|Hin].
    + apply IH1 in Hin. destruct Hin as (read & Ha & Hb & Hm).
      exists read. repeat split; try assumption. lia.
    + apply IH2 in Hin. destruct Hin as (read & Ha & Hb & Hm).
      exists read. repeat split; try assumption. lia.
  - apply in_app_or in Hin. destruct Hin as [Hin|Hin].
    + apply IH1 in Hin. destruct Hin as (read & Ha & Hb & Hm).
      exists read. repeat split; try assumption. lia.
    + destruct Hin as [<-|[]]. exists []. repeat split. simpl. lia.
  - destruct (rmatch r1 before after); [contradiction|].
    destruct Hin as [<-|[]]. exists []. repeat split. simpl. lia.
  - destruct (behind_ok (rev ps) before); [|contradiction].
    destruct Hin as [<-|[]]. exists []. repeat split. simpl. lia.
  - destruct after; [|contradiction].
    destruct Hin as [<-|[]]. exists []. repeat split. simpl. lia.
Qed.

(** [wordsep_re] never matches the empty string: where the pattern
    matches, [match_here] returns its first match. *)
Lemma wordsep_re_reads_some (before after : str) (pos : position) :
  In pos (rmatch (wordsep_re isalnum isdecimal) before after) ->
  length (snd pos) < length after.
Proof.
  intros Hin. apply rmatch_reads in Hin.
  destruct Hin as (read & Ha & _ & Hm).
  change (min_width (wordsep_re isalnum isdecimal)) with 1 in Hm.
  rewrite Ha, length_app. lia.
Qed.

Lemma visible_app (s t : str) : visible (s ++ t) = visible s ++ visible t.
Proof. apply filter_app. Qed.

Lemma visible_concat (parts : list str) :
  visible (concat parts) = concat (map visible parts).
Proof.
  induction parts as [|p parts IH]; [reflexivity|].
  simpl. rewrite visible_app, IH. reflexivity.
Qed.

Lemma visible_blank (s : str) : strip_is_empty s = true -> visible s = [].
Proof.
  unfold strip_is_empty, visible. induction s as [|c s IH]; [reflexivity|].
  simpl. rewrite andb_true_iff. intros [Hc Hs]. rewrite Hc. simpl. auto.
Qed.

Lemma visible_rev_app (cur s : str) :
  visible (rev cur ++ s) = visible (rev cur) ++ visible s.
Proof. apply visible_app. Qed.

Lemma linebreak_isspace (c : char) : is_linebreak c = true -> isspace c = true.
Proof.
  unfold is_linebreak, isspace, mem_char. intros H.
  apply existsb_exists in H. destruct H as (b & Hin & Hb).
  apply N.eqb_eq in Hb. subst b.
  simpl in Hin.
  repeat (destruct Hin as [<-|Hin]; [reflexivity|]). contradiction.
Qed.

Lemma re_ws_isspace (c : char) : re_ws c = true -> isspace c = true.
Proof.
  unfold re_ws, isspace, mem_char. intros H.
  apply existsb_exists in H. destruct H as (b & Hin & Hb).
  apply N.eqb_eq in Hb. subst b.
  simpl in Hin.
  repeat (destruct Hin as [<-|Hin]; [reflexivity|]). contradiction.
Qed.

Lemma visible_join_lines (lines : list str) :
  visible (join [chr_LF] lines) = concat (map visible lines).
Proof.
  induction lines as [|l [|l' lines] IH]; [reflexivity| |].
  - simpl. rewrite app_nil_r. reflexivity.
  - change (join [chr_LF] (l :: l' :: lines))
      with (l ++ [chr_LF] ++ join [chr_LF] (l' :: lines)).
    rewrite !visible_app, IH. reflexivity.
Qed.

Lemma visible_splitlines (s : str) :
  forall cur, concat (map visible (splitlines_from cur s)) = visible (rev cur ++ s).
Proof.
  assert (Hlen : forall n (t : str), length t <= n ->
            forall cur, concat (map visible (splitlines_from cur t))
                        = visible (rev cur ++ t)).
  { induction n as [|n IH]; intros t Ht cur.
    - destruct t; [|simpl in Ht; lia].
      simpl. rewrite app_nil_r. destruct cur; [reflexivity|].
      simpl. rewrite app_nil_r. reflexivity.
    - destruct t as [|c rest].
      + simpl. rewrite app_nil_r. destruct cur; [reflexivity|].
        simpl. rewrite app_nil_r. reflexivity.
      + simpl in Ht. cbn [splitlines_from].
        destruct (is_linebreak c) eqn:Hc.
        * assert (Hv : visible (rev cur ++ c :: rest) = visible (rev cur) ++ visible rest).
          { rewrite visible_app. f_equal. unfold visible at 1. simpl.
            rewrite (linebreak_isspace _ Hc). reflexivity. }
          rewrite Hv. cbn [map concat]. f_equal.
          destruct rest as [|d rest'].
          -- reflexivity.
          -- destruct (N.eqb c chr_CR && N.eqb d chr_LF) eqn:Hcrlf.
             ++ rewrite IH by (simpl in Ht; lia).
                apply andb_true_iff in Hcrlf. destruct Hcrlf as [_ Hd].
                apply N.eqb_eq in Hd. subst d. reflexivity.
             ++ rewrite IH by (simpl in Ht |- *; lia). reflexivity.
        * rewrite IH by lia. simpl. rewrite <- app_assoc. reflexivity. }
  apply (Hlen (length s)). lia.
Qed.

Lemma visible_expandtabs (tabsize : nat) (s : str) :
  forall col, visible (expandtabs_from tabsize col s) = visible s.
Proof.
  induction s as [|c s IH]; intros col; [reflexivity|].
  cbn [expandtabs_from]. destruct (N.eqb c chr_TAB) eqn:Hc.
  - apply N.eqb_eq in Hc. subst c.
    assert (Hsp : forall n, visible (repeat chr_SPACE n) = []).
    { induction n; [reflexivity|exact IHn]. }
    destruct tabsize.
    + rewrite IH. reflexivity.
    + rewrite visible_app, Hsp, IH. reflexivity.
  - unfold visible at 1 2. cbn [filter]. fold (visible (expandtabs_from tabsize
      (if N.eqb c chr_LF || N.eqb c chr_CR then 0 else S col) s)).
    fold (visible s). rewrite IH. reflexivity.
Qed.

Lemma visible_munge (text : str) : visible (_munge_whitespace text) = visible text.
Proof.
  unfold _munge_whitespace, expandtabs.
  rewrite <- (visible_expandtabs 8 text 0).
  induction (expandtabs_from 8 0 text) as [|c s IH]; [reflexivity|].
  cbn [map]. unfold visible in *. cbn [filter]. rewrite IH.
  destruct (re_ws c) eqn:Hc; [|reflexivity].
  rewrite (re_ws_isspace _ Hc). reflexivity.
Qed.

Lemma match_here_split (r : regex) (before after m s' : str) :
  match_here r before after = Some (m, s') -> m ++ s' = after.
Proof.
  unfold match_here.
  destruct (rmatch r before after) as [|[b a'] ps]; [discriminate|].
  destruct (length after - length a') as [|n]; [discriminate|].
  generalize (S n). intros k H. inversion H. apply firstn_skipn.
Qed.

Lemma re_split_partition (r : regex) (before gap s : str) :
  concat (re_split r before gap s) = rev gap ++ s.
Proof.
  funelim (re_split r before gap s).
  - simpl. rewrite !app_nil_r. reflexivity.
  - cbn [concat]. rewrite H. cbn [rev app]. f_equal.
    eapply match_here_split; eassumption.
  - rewrite H. cbn [rev]. rewrite <- app_assoc. reflexivity.
Qed.

Lemma concat_nonempty (parts : list str) :
  concat (filter (fun c => negb (str_eqb c [])) parts) = concat parts.
Proof.
  induction parts as [|[|c p] parts IH]; [reflexivity|exact IH|].
  simpl. rewrite IH. reflexivity.
Qed.

Lemma split_chunks_text (text : str) :
  concat (_split_chunks isalnum isdecimal text) = _munge_whitespace text.
Proof.
  unfold _split_chunks, _split. rewrite concat_nonempty, re_split_partition.
  reflexivity.
Qed.

Lemma take_fitting_chunks (width : nat) (chunks : list str) :
  forall cur_line cur_len cur_line' cur_len' rest,
    take_fitting width cur_line cur_len chunks = (cur_line', cur_len', rest) ->
    cur_line' ++ rest = cur_line ++ chunks.
Proof.
  induction chunks as [|c chunks IH]; simpl; intros cl n cl' n' rest H.
  - inversion H; reflexivity.
  - destruct (n + length c <=? width).
    + apply IH in H. rewrite H, <- app_assoc. reflexivity.
    + inversion H; reflexivity.
Qed.

Lemma visible_drop_trailing_blank (cur_line : list str) :
  visible (concat (drop_trailing_blank cur_line)) = visible (concat cur_line).
Proof.
  unfold drop_trailing_blank.
  destruct (rev cur_line) as [|c rc] eqn:Hrev; [reflexivity|].
  destruct (strip_is_empty c) eqn:Hblank; [|reflexivity].
  assert (Hcl : cur_line = rev rc ++ [c]).
  { rewrite <- (rev_involutive cur_line), Hrev. reflexivity. }
  rewrite Hcl, removelast_last, concat_app, visible_app.
  simpl. rewrite app_nil_r, (visible_blank _ Hblank), app_nil_r. reflexivity.
Qed.

Lemma wrap_line_visible (width : nat) (chunks lines cur_line rest : list str) :
  wrap_line width chunks lines = (cur_line, rest) ->
  visible (concat cur_line) ++ visible (concat rest) = visible (concat chunks).
Proof.
  unfold wrap_line.
  set (chunks1 := match chunks with
                  | [] => chunks
                  | c :: rest0 =>
                      match lines with
                      | [] => chunks
                      | _ :: _ => if strip_is_empty c then rest0 else chunks
                      end
                  end).
  assert (H1 : visible (concat chunks1) = visible (concat chunks)).
  { subst chunks1. destruct chunks as [|c rest0]; [reflexivity|].
    destruct lines; [reflexivity|].
    destruct (strip_is_empty c) eqn:Hc; [|reflexivity].
    simpl. rewrite visible_app, (visible_blank _ Hc). reflexivity. }
  destruct (take_fitting width [] 0 chunks1) as [[cl n] r] eqn:Hfit.
  apply take_fitting_chunks in Hfit. simpl in Hfit.
  assert (H2 : forall cl1 r3,
             match r with
             | c :: _ =>
                 if width <? length c then _handle_long_word r cl else (cl, r)
             | [] => (cl, r)
             end = (cl1, r3) -> cl1 ++ r3 = chunks1).
  { intros cl1 r3 H. destruct r as [|c r'].
    - inversion H; subst. exact Hfit.
    - destruct (width <? length c).
      + unfold _handle_long_word in H. destruct cl; inversion H; subst; exact Hfit.
      + inversion H; subst. exact Hfit. }
  destruct (match r with
            | c :: _ =>
                if width <? length c then _handle_long_word r cl else (cl, r)
            | [] => (cl, r)
            end) as [cl1 r3].
  specialize (H2 _ _ eq_refl).
  intros H. inversion H; subst cur_line rest.
  rewrite visible_drop_trailing_blank, <- visible_app, <- concat_app.
  transitivity (visible (concat chunks1)); [|exact H1].
  do 2 f_equal. exact H2.
Qed.

Lemma wrap_loop_visible (width : nat) (chunks lines : list str) :
  visible (concat (wrap_loop width chunks lines)) =
  visible (concat lines) ++ visible (concat chunks).
Proof.
  funelim (wrap_loop width chunks lines).
  - simpl. rewrite app_nil_r. reflexivity.
  - rewrite H. pose proof (wrap_line_visible _ _ _ Heq) as Hline.
    rewrite <- Hline. rewrite app_assoc. f_equal.
    destruct cur_line as [|l cur_line]; [rewrite app_nil_r; reflexivity|].
    rewrite concat_app, visible_app. simpl. rewrite app_nil_r. reflexivity.
Qed.

Lemma wrap_visible (text : str) (width : nat) :
  visible (concat (wrap isalnum isdecimal text width)) = visible text.
Proof.
  unfold wrap, _wrap_chunks. rewrite wrap_loop_visible. simpl.
  rewrite split_chunks_text. apply visible_munge.
Qed.

Lemma clean_lines_flat_map (text : str) :
  clean_lines isalnum isdecimal text =
  flat_map (fun line => if 120 <? length line
                        then wrap isalnum isdecimal line 120 else [line])
           (splitlines text).
Proof.
  unfold clean_lines.
  assert (Hfold : forall lines acc,
            fold_left (fun ls line => if 120 <? length line
                                      then ls ++ wrap isalnum isdecimal line 120
                                      else ls ++ [line]) lines acc =
            acc ++ flat_map (fun line => if 120 <? length line
                                         then wrap isalnum isdecimal line 120
                                         else [line]) lines).
  { induction lines as [|l lines IH]; intros acc; simpl.
    - rewrite app_nil_r. reflexivity.
    - rewrite IH. destruct (120 <? length l); rewrite <- app_assoc; reflexivity. }
  apply (Hfold (splitlines text) []).
Qed.

Lemma wrap_loop_step (width : nat) (c : str) (cs lines cur_line rest : list str) :
  wrap_line width (c :: cs) lines = (cur_line, rest) ->
  wrap_loop width (c :: cs) lines =
  wrap_loop width rest
    match cur_line with
    | [] => lines
    | _ :: _ => lines ++ [concat cur_line]
    end.
Proof.
  intros H.
  rewrite <- (wrap_loop_clause_2_equation_1 width c cs lines H).
  rewrite wrap_loop_equation_2. f_equal.
  unfold inspect. generalize H. generalize (cur_line, rest).
  intros p Hp. destruct Hp. reflexivity.
Qed.

Lemma wrap_loop_pass (width : nat) (chunks lines cur_line rest : list str) :
  chunks <> [] ->
  wrap_line width chunks lines = (cur_line, rest) ->
  wrap_loop width chunks lines =
  wrap_loop width rest
    match cur_line with
    | [] => lines
    | _ :: _ => lines ++ [concat cur_line]
    end.
Proof.
  destruct chunks as [|c cs]; [intros H; contradiction H; reflexivity|].
  intros _. apply wrap_loop_step.
Qed.

Lemma split_chunks_nonempty (text : str) :
  Forall (fun c => c <> []) (_split_chunks isalnum isdecimal text).
Proof.
  unfold _split_chunks, _split. apply Forall_forall. intros c Hc.
  apply filter_In in Hc. destruct Hc as [_ Hc]. intros ->. discriminate Hc.
Qed.

Lemma take_fitting_app (width : nat) (pre : list str) :
  forall (cur_line : list str) (cur_len : nat) (rest : list str),
    cur_len = length (concat cur_line) ->
    length (concat (cur_line ++ pre)) <= width ->
    take_fitting width cur_line cur_len (pre ++ rest) =
    take_fitting width (cur_line ++ pre) (length (concat (cur_line ++ pre))) rest.
Proof.
  induction pre as [|c pre IH]; intros cl n rest Hn Hfit.
  - rewrite app_nil_r. subst n. reflexivity.
  - cbn [app take_fitting].
    assert (Hlen : length (concat (cl ++ [c])) = n + length c).
    { rewrite concat_app, length_app. cbn [concat]. rewrite app_nil_r. lia. }
    assert (Hc : n + length c <= width).
    { pose proof Hfit as Hfit'.
      rewrite concat_app, length_app in Hfit'. cbn [concat] in Hfit'.
      rewrite length_app in Hfit'. lia. }
    apply Nat.leb_le in Hc. rewrite Hc.
    assert (Hcl : (cl ++ [c]) ++ pre = cl ++ c :: pre)
      by (rewrite <- app_assoc; reflexivity).
    etransitivity; [apply IH|].
    + symmetry. exact Hlen.
    + rewrite Hcl. exact Hfit.
    + rewrite Hcl. reflexivity.
Qed.

Lemma take_fitting_stop (width : nat) (cur_line : list str) (cur_len : nat)
    (rest : list str) :
  match rest with
  | [] => True
  | c :: _ => width < cur_len + length c
  end ->
  take_fitting width cur_line cur_len rest = (cur_line, cur_len, rest).
Proof.
  destruct rest as [|c rest]; [reflexivity|].
  intros H. cbn [take_fitting]. apply Nat.leb_gt in H. rewrite H. reflexivity.
Qed.

Lemma drop_trailing_gap (group gap : list str) :
  ends_solid group = true -> dropped_gap gap = true ->
  drop_trailing_blank (group ++ gap) = group.
Proof.
  unfold ends_solid, dropped_gap, drop_trailing_blank.
  intros Hg Hgap. destruct gap as [|b [|b' gap]]; [| |discriminate Hgap].
  - rewrite app_nil_r. destruct (rev group) as [|c rg]; [reflexivity|].
    apply negb_true_iff in Hg. rewrite Hg. reflexivity.
  - rewrite rev_app_distr. cbn [rev app]. rewrite Hgap.
    apply removelast_last.
Qed.

(** A group that fills the line, with the gap that still fits after it,
    is the line built; what neither fits nor is dropped is left. *)
Lemma wrap_line_group (width : nat) (group gap rest lines : list str) :
  lines = [] \/ starts_solid group = true ->
  ends_solid group = true ->
  dropped_gap gap = true ->
  length (concat (group ++ gap)) <= width ->
  match rest with
  | [] => True
  | c :: _ => width < length (concat (group ++ gap)) + length c
  end ->
  wrap_line width (group ++ gap ++ rest) lines = (group, rest).
Proof.
  intros Hstart Hend Hgap Hfit Hstop. unfold wrap_line.
  destruct group as [|c0 group]; [discriminate Hend|].
  assert (H1 : match (c0 :: group) ++ gap ++ rest, lines with
               | c :: rest0, _ :: _ =>
                   if strip_is_empty c then rest0 else (c0 :: group) ++ gap ++ rest
               | _, _ => (c0 :: group) ++ gap ++ rest
               end = (c0 :: group) ++ gap ++ rest).
  { cbn [app]. destruct lines as [|l lines]; [reflexivity|].
    destruct Hstart as [Hstart|Hstart]; [discriminate Hstart|].
    cbn [starts_solid] in Hstart. apply negb_true_iff in Hstart.
    rewrite Hstart. reflexivity. }
  rewrite H1. clear H1.
  rewrite app_assoc.
  rewrite (@take_fitting_app width ((c0 :: group) ++ gap) [] 0 rest eq_refl Hfit).
  cbn [app] in Hstop |- *.
  rewrite (@take_fitting_stop width (c0 :: group ++ gap) _ rest Hstop).
  assert (H2 : match rest with
               | c :: _ =>
                   if width <? length c
                   then _handle_long_word rest (c0 :: group ++ gap)
                   else (c0 :: group ++ gap, rest)
               | [] => (c0 :: group ++ gap, rest)
               end = (c0 :: group ++ gap, rest)).
  { destruct rest as [|c rest']; [reflexivity|].
    destruct (width <? length c); reflexivity. }
  rewrite H2.
  pose proof (@drop_trailing_gap (c0 :: group) gap Hend Hgap) as Hdrop.
  cbn [app] in Hdrop. rewrite Hdrop. reflexivity.
Qed.

(** A blank chunk at the start of a line after the first is dropped. *)
Lemma wrap_line_skip_blank (width : nat) (b : str) (chunks lines : list str) :
  strip_is_empty b = true ->
  starts_solid chunks = true ->
  lines <> [] ->
  wrap_line width (b :: chunks) lines = wrap_line width chunks lines.
Proof.
  intros Hb Hstart Hlines. unfold wrap_line.
  destruct lines as [|l lines]; [contradiction Hlines; reflexivity|].
  destruct chunks as [|c chunks]; [discriminate Hstart|].
  cbn [starts_solid] in Hstart. apply negb_true_iff in Hstart.
  rewrite Hb, Hstart. reflexivity.
Qed.

Lemma wrap_loop_group (width : nat)
    (before group gap rest chunks lines lines' : list str) :
  chunks = before ++ group ++ gap ++ rest ->
  lines' = lines ++ [concat group] ->
  dropped_gap before = true ->
  before = [] \/ lines <> [] ->
  lines = [] \/ starts_solid group = true ->
  ends_solid group = true ->
  dropped_gap gap = true ->
  length (concat (group ++ gap)) <= width ->
  match rest with
  | [] => True
  | c :: _ => width < length (concat (group ++ gap)) + length c
  end ->
  wrap_loop width chunks lines = wrap_loop width rest lines'.
Proof.
  intros -> -> Hbefore Hfirst Hstart Hend Hgap Hfit Hstop.
  assert (Hgroup : exists c group', group = c :: group').
  { destruct group as [|c group']; [discriminate Hend|]. eauto. }
  destruct Hgroup as (c & group' & Hgroup).
  assert (Hline : wrap_line width (before ++ group ++ gap ++ rest) lines
                  = (group, rest)).
  { destruct before as [|b [|b' before]]; [| |discriminate Hbefore].
    - exact (@wrap_line_group width group gap rest lines Hstart Hend Hgap Hfit Hstop).
    - cbn [dropped_gap] in Hbefore.
      destruct Hfirst as [Hfirst|Hfirst]; [discriminate Hfirst|].
      destruct Hstart as [Hstart|Hstart]; [contradiction Hfirst|].
      cbn [app].
      assert (Hsolid : starts_solid (group ++ gap ++ rest) = true).
      { destruct group; [discriminate Hstart|exact Hstart]. }
      rewrite (@wrap_line_skip_blank width b (group ++ gap ++ rest) lines
                 Hbefore Hsolid Hfirst).
      exact (@wrap_line_group width group gap rest lines
               (or_intror Hstart) Hend Hgap Hfit Hstop). }
  rewrite (@wrap_loop_pass width _ lines group rest).
  - rewrite Hgroup. reflexivity.
  - rewrite Hgroup. destruct before; discriminate.
  - exact Hline.
Qed.

(** A blank chunk left alone after the last line is dropped. *)
Lemma wrap_loop_blank_tail (width : nat) (gap lines : list str) :
  dropped_gap gap = true -> lines <> [] ->
  wrap_loop width gap lines = lines.
Proof.
  intros Hgap Hlines.
  destruct gap as [|b [|b' gap]]; [| |discriminate Hgap].
  - apply wrap_loop_equation_1.
  - cbn [dropped_gap] in Hgap.
    rewrite (@wrap_loop_step width b [] lines [] []).
    + apply wrap_loop_equation_1.
    + unfold wrap_line. destruct lines as [|l lines]; [contradiction Hlines; reflexivity|].
      rewrite Hgap. reflexivity.
Qed.

(** C2, amended: a single 300-character line whose chunks fall into
    three groups of 120, 120 and 60 characters, each group with a chunk
    that is not blank at its start (save the first group) and at its end,
    with at most one blank chunk after each group, is normalised into
    exactly these three groups as lines of 120, 120 and 60 characters; no
    chunk is broken, and the blank chunks between the groups are
    dropped. *)
Theorem long_line_three_groups (line : str) (g1 d1 g2 d2 g3 d3 : list str) :
  length line = 300 ->
  splitlines line = [line] ->
  _split_chunks isalnum isdecimal line = g1 ++ d1 ++ g2 ++ d2 ++ g3 ++ d3 ->
  length (concat g1) = 120 -> length (concat g2) = 120 -> length (concat g3) = 60 ->
  ends_solid g1 = true ->
  starts_solid g2 = true -> ends_solid g2 = true ->
  starts_solid g3 = true -> ends_solid g3 = true ->
  dropped_gap d1 = true -> dropped_gap d2 = true -> dropped_gap d3 = true ->
  clean_lines isalnum isdecimal line = [concat g1; concat g2; concat g3] /\
  map (@length char) (clean_lines isalnum isdecimal line) = [120; 120; 60].
Proof.
  intros Hlen Hlines Hchunks L1 L2 L3 E1 S2 E2 S3 E3 D1 D2 D3.
  assert (Hstop : forall (g rest : list str),
             length (concat g) = 120 ->
             Forall (fun c : str => c <> []) rest ->
             match rest with
             | [] => True
             | c :: _ => 120 < length (concat (g ++ [])) + length c
             end).
  { intros g [|c rest] Hg Hrest; [exact I|].
    rewrite app_nil_r, Hg.
    inversion Hrest as [|? ? Hc _]; subst.
    destruct c; [contradiction Hc; reflexivity|simpl; lia]. }
  assert (Hfull_line : forall g : list str,
             length (concat g) = 120 -> length (concat (g ++ [])) <= 120).
  { intros g Hg. rewrite app_nil_r, Hg. lia. }
  pose proof (split_chunks_nonempty line) as Hfull.
  rewrite Hchunks in Hfull.
  apply Forall_app in Hfull. destruct Hfull as [_ Hfull1].
  pose proof Hfull1 as Hfull2.
  apply Forall_app in Hfull2. destruct Hfull2 as [_ Hfull2].
  apply Forall_app in Hfull2. destruct Hfull2 as [_ Hfull2].
  pose proof Hfull2 as Hfull3.
  apply Forall_app in Hfull3. destruct Hfull3 as [_ Hfull3].
  apply Forall_app in Hfull3. destruct Hfull3 as [_ Hfull3].
  assert (Hclean : clean_lines isalnum isdecimal line
                   = [concat g1; concat g2; concat g3]).
  { rewrite clean_lines_flat_map, Hlines. cbn [flat_map]. rewrite Hlen.
    change (120 <? 300) with true. cbv iota. rewrite app_nil_r.
    unfold wrap, _wrap_chunks. rewrite Hchunks.
    assert (Hne1 : [concat g1] <> []) by discriminate.
    assert (Hne2 : [concat g1; concat g2] <> []) by discriminate.
    assert (P1 : wrap_loop 120 (g1 ++ d1 ++ g2 ++ d2 ++ g3 ++ d3) [] =
                 wrap_loop 120 (d1 ++ g2 ++ d2 ++ g3 ++ d3) [concat g1]).
    { exact (@wrap_loop_group 120 [] g1 [] (d1 ++ g2 ++ d2 ++ g3 ++ d3)
               (g1 ++ d1 ++ g2 ++ d2 ++ g3 ++ d3) [] [concat g1]
               eq_refl eq_refl
               eq_refl (or_introl eq_refl) (or_introl eq_refl) E1 eq_refl
               (Hfull_line g1 L1) (Hstop g1 _ L1 Hfull1)). }
    assert (P2 : wrap_loop 120 (d1 ++ g2 ++ d2 ++ g3 ++ d3) [concat g1] =
                 wrap_loop 120 (d2 ++ g3 ++ d3) [concat g1; concat g2]).
    { exact (@wrap_loop_group 120 d1 g2 [] (d2 ++ g3 ++ d3)
               (d1 ++ g2 ++ d2 ++ g3 ++ d3) [concat g1] [concat g1; concat g2]
               eq_refl eq_refl
               D1 (or_intror Hne1) (or_intror S2) E2 eq_refl
               (Hfull_line g2 L2) (Hstop g2 _ L2 Hfull2)). }
    assert (P3 : wrap_loop 120 (d2 ++ g3 ++ d3) [concat g1; concat g2] =
                 [concat g1; concat g2; concat g3]).
    { destruct (length (concat (g3 ++ d3)) <=? 120) eqn:Hfit.
      - apply Nat.leb_le in Hfit.
        assert (P : wrap_loop 120 (d2 ++ g3 ++ d3) [concat g1; concat g2] =
                    wrap_loop 120 [] [concat g1; concat g2; concat g3]).
        { refine (@wrap_loop_group 120 d2 g3 d3 []
                   (d2 ++ g3 ++ d3) [concat g1; concat g2]
                   [concat g1; concat g2; concat g3]
                   _ eq_refl
                   D2 (or_intror Hne2) (or_intror S3) E3 D3
                   Hfit I).
          rewrite app_nil_r. reflexivity. }
        etransitivity; [exact P|apply wrap_loop_equation_1].
      - apply Nat.leb_gt in Hfit.
        assert (Hfit3 : length (concat (g3 ++ [])) <= 120)
          by (rewrite app_nil_r, L3; lia).
        assert (Hstop3 : match d3 with
                         | [] => True
                         | c :: _ => 120 < length (concat (g3 ++ [])) + length c
                         end).
        { rewrite app_nil_r, L3. destruct d3 as [|b d3']; [exact I|].
          rewrite concat_app, length_app, L3 in Hfit.
          destruct d3'; [|discriminate D3].
          cbn [concat] in Hfit. rewrite app_nil_r in Hfit. lia. }
        assert (P : wrap_loop 120 (d2 ++ g3 ++ d3) [concat g1; concat g2] =
                    wrap_loop 120 d3 [concat g1; concat g2; concat g3]).
        { exact (@wrap_loop_group 120 d2 g3 [] d3
                   (d2 ++ g3 ++ d3) [concat g1; concat g2]
                   [concat g1; concat g2; concat g3]
                   eq_refl eq_refl
                   D2 (or_intror Hne2) (or_intror S3) E3
                   eq_refl Hfit3 Hstop3). }
        etransitivity; [exact P|].
        apply wrap_loop_blank_tail; [exact D3|discriminate]. }
    etransitivity; [exact P1|]. etransitivity; [exact P2|exact P3]. }
  split; [exact Hclean|].
  rewrite Hclean. cbn [map]. rewrite L1, L2, L3. reflexivity.
Qed.

(** ** Further properties *)

(** *** [human_readable_size] *)

Lemma format_1f_whole (n den : Z) :
  (0 <= n)%Z -> (0 < den)%Z ->
  format_1f (n * den) den = str_of_Z n ++ py ".0".
Proof.
  intros Hn Hden. unfold format_1f.
  assert (Habs : Z.abs (n * den) = (n * den)%Z) by (apply Z.abs_eq; nia).
  rewrite Habs.
  replace (n * den * 10)%Z with (n * 10 * den)%Z by ring.
  rewrite Z.div_mul by lia. rewrite Z.mod_mul by lia.
  replace (den <? 2 * 0)%Z with false by (symmetry; apply Z.ltb_ge; lia).
  replace (2 * 0 =? den)%Z with false by (symmetry; apply Z.eqb_neq; lia).
  replace (n * den <? 0)%Z with false by (symmetry; apply Z.ltb_ge; nia).
  rewrite Z.div_mul by lia. rewrite Z.mod_mul by lia. reflexivity.
Qed.

(** A whole number of 53 bits at most, times a power of two, is its own
    float. *)
Lemma float_of_int_exact (m j : Z) :
  (Z.abs m < 2 ^ 53)%Z -> (0 <= j)%Z ->
  float_of_int (m * 2 ^ j) = (m * 2 ^ j)%Z.
Proof.
  intros Hm Hj. unfold float_of_int.
  assert (Hpow : (0 < 2 ^ j)%Z) by (apply Z.pow_pos_nonneg; lia).
  rewrite Z.abs_mul, (Z.abs_eq (2 ^ j)) by lia.
  destruct (Z.eq_dec m 0) as [->|Hm0]; [reflexivity|].
  assert (Hpos : (0 < Z.abs m)%Z) by lia.
  rewrite (Z.log2_mul_pow2 (Z.abs m) j) by lia.
  assert (Hlog : (Z.log2 (Z.abs m) < 53)%Z) by (apply Z.log2_lt_pow2; lia).
  set (shift := (j + Z.log2 (Z.abs m) + 1 - 53)%Z).
  destruct (shift <=? 0)%Z eqn:Hshift; [reflexivity|].
  apply Z.leb_gt in Hshift.
  assert (Hsplit : (Z.abs m * 2 ^ j = Z.abs m * 2 ^ (j - shift) * 2 ^ shift)%Z).
  { rewrite <- Z.mul_assoc, <- Z.pow_add_r by lia. do 2 f_equal. lia. }
  assert (Hps : (0 < 2 ^ shift)%Z) by (apply Z.pow_pos_nonneg; lia).
  assert (Hhalf : (0 < 2 ^ (shift - 1))%Z) by (apply Z.pow_pos_nonneg; lia).
  rewrite Hsplit, Z.div_mul, Z.mod_mul by lia.
  replace (2 ^ (shift - 1) <? 0)%Z with false by (symmetry; apply Z.ltb_ge; lia).
  replace (0 =? 2 ^ (shift - 1))%Z with false by (symmetry; apply Z.eqb_neq; lia).
  cbn [orb andb]. rewrite <- Hsplit.
  rewrite Z.sgn_mul, (Z.sgn_pos (2 ^ j)) by lia.
  rewrite Z.mul_1_r, Z.mul_assoc. f_equal.
  rewrite Z.mul_comm. apply Z.abs_sgn.
Qed.

(** X1: a size that is a whole number [n] (from 1 to 1023) of bytes,
    kilobytes, ... is written as [n], one decimal 0, the unit letter and
    B, for each of the eight units. *)
Theorem human_readable_size_whole_units (n : Z) (k : nat) :
  (1 <= n < 1024)%Z -> k < 8 ->
  human_readable_size (n * 1024 ^ Z.of_nat k) =
  str_of_Z n ++ py ".0" ++ nth k unit_names [] ++ py "B".
Proof.
  intros Hn Hk. unfold human_readable_size.
  do 8 (destruct k as [|k]; [
    match goal with
    | |- context [(1024 ^ Z.of_nat ?j)%Z] =>
        let c := eval vm_compute in (1024 ^ Z.of_nat j)%Z in
        change (1024 ^ Z.of_nat j)%Z with c
    end;
    match goal with
    | |- context [float_of_int (n * ?c)] =>
        replace (float_of_int (n * c)) with (n * c)%Z
          by (symmetry; change c with (2 ^ Z.log2 c)%Z;
              apply float_of_int_exact; [lia|vm_compute; discriminate])
    end;
    cbn [human_readable_size_loop unit_names nth];
    repeat match goal with
           | |- context [(Z.abs ?a <? ?b)%Z] =>
               first
                 [ replace (Z.abs a <? b)%Z with false
                     by (symmetry; apply Z.ltb_ge; lia)
                 | replace (Z.abs a <? b)%Z with true
                     by (symmetry; apply Z.ltb_lt; lia) ]
           end;
    match goal with
    | |- context [format_1f (n * ?c) ?d] =>
        replace d with c by reflexivity;
        rewrite (@format_1f_whole n c) by lia
    end;
    rewrite <- !app_assoc; reflexivity
  |]).
  lia.
Qed.

(** *** Text, Markdown and HTML exports *)

Lemma join_first_char (sep : str) (c : char) (p default : str) (rest : list str) :
  exists tail, str_or (join sep ((c :: p) :: rest)) default = c :: tail.
Proof.
  destruct rest as [|q rest]; eexists; reflexivity.
Qed.

Lemma join_starts_with (head q default : str) (rest : list str) :
  head <> [] ->
  is_prefix head (str_or (join [chr_LF] (head :: q :: rest)) default) = true.
Proof.
  intros Hhead. destruct head as [|c head]; [contradiction Hhead; reflexivity|].
  change (join [chr_LF] ((c :: head) :: q :: rest))
    with ((c :: head) ++ [chr_LF] ++ join [chr_LF] (q :: rest)).
  clear Hhead. cbn [app str_or is_prefix]. rewrite N.eqb_refl. cbn [andb].
  induction head as [|d head IH]; [reflexivity|].
  cbn [app is_prefix]. rewrite N.eqb_refl. exact IH.
Qed.

(** X2: the text export is the sentence "No content found" exactly when
    there is neither a tree nor a file.  With a tree it starts with the
    heading "Directory Structure:"; with files and no tree it starts with
    a line feed followed by the heading "File Contents:". *)
Theorem export_txt_no_content (tree : list (Entry float)) (files : list FileRecord) :
  (export_txt tree files = py "No content found" <-> tree = [] /\ files = []) /\
  match tree, files with
  | [], [] => export_txt tree files = py "No content found"
  | [], _ :: _ =>
      is_prefix (chr_LF :: py "File Contents:") (export_txt tree files) = true
  | _ :: _, _ =>
      is_prefix (py "Directory Structure:") (export_txt tree files) = true
  end.
Proof.
  split.
  - split.
    + unfold export_txt. destruct tree as [|e tree].
      * destruct files as [|f files]; [intros _; split; reflexivity|].
        cbn [app].
        match goal with
        | |- str_or (join _ (_ :: ?rest)) ?d = _ -> _ =>
            destruct (join_first_char [chr_LF] chr_LF (py "File Contents:") d rest)
              as (tail & Heq)
        end.
        intros H. pose proof (eq_trans (eq_sym Heq) H) as Hbad. discriminate Hbad.
      * match goal with
        | |- str_or (join _ ?parts) ?d = _ -> _ =>
            assert (Hparts : exists tail,
                       str_or (join [chr_LF] parts) d = 68%N :: tail)
        end.
        { destruct files; cbn [app];
            apply (join_first_char [chr_LF] 68%N (py "irectory Structure:")). }
        destruct Hparts as (tail & Heq).
        intros H. pose proof (eq_trans (eq_sym Heq) H) as Hbad. discriminate Hbad.
    + intros [-> ->]. reflexivity.
  - unfold export_txt. destruct tree as [|e tree].
    + destruct files as [|f files]; [reflexivity|].
      cbn [app map]. apply join_starts_with. discriminate.
    + destruct files as [|f files]; cbn [app map];
        apply join_starts_with; discriminate.
Qed.

(** X3: the Markdown export is the sentence "No content found" exactly
    when there is neither a tree nor a file. *)
Theorem export_markdown_no_content (tree : list (Entry float)) (files : list FileRecord) :
  export_markdown tree files = py "No content found" <-> tree = [] /\ files = [].
Proof.
  split.
  - unfold export_markdown. destruct tree as [|e tree].
    + destruct files as [|f files]; [intros _; split; reflexivity|].
      cbn [app].
      match goal with
      | |- str_or (join _ (_ :: ?rest)) ?d = _ -> _ =>
          destruct (join_first_char [chr_LF] chr_LF (py "# File Contents") d rest)
            as (tail & Heq)
      end.
      intros H. pose proof (eq_trans (eq_sym Heq) H) as Hbad. discriminate Hbad.
    + match goal with
      | |- str_or (join _ ?parts) ?d = _ -> _ =>
          assert (Hparts : exists tail,
                     str_or (join [chr_LF] parts) d = 35%N :: tail)
      end.
      { destruct files; cbn [app];
          apply (join_first_char [chr_LF] 35%N (py " Directory Structure")). }
      destruct Hparts as (tail & Heq).
      intros H. pose proof (eq_trans (eq_sym Heq) H) as Hbad. discriminate Hbad.
  - intros [-> ->]. reflexivity.
Qed.

Lemma is_prefix_app (needle tail : str) : is_prefix needle (needle ++ tail) = true.
Proof.
  induction needle as [|c needle IH]; [reflexivity|].
  simpl. rewrite N.eqb_refl, IH. reflexivity.
Qed.

Lemma str_contains_middle (needle before after : str) :
  str_contains needle (before ++ needle ++ after) = true.
Proof.
  induction before as [|c before IH].
  - simpl. destruct (needle ++ after) eqn:E;
      simpl; rewrite <- E, is_prefix_app; reflexivity.
  - simpl. rewrite IH. apply orb_true_r.
Qed.

Lemma join_part (sep p : str) (parts : list str) :
  In p parts -> exists before after, join sep parts = before ++ p ++ after.
Proof.
  induction parts as [|q [|q' parts] IH]; intros Hin.
  - contradiction.
  - destruct Hin as [->|[]]. exists [], []. simpl. rewrite app_nil_r. reflexivity.
  - change (join sep (q :: q' :: parts)) with (q ++ sep ++ join sep (q' :: parts)).
    destruct Hin as [->|Hin].
    + exists [], (sep ++ join sep (q' :: parts)). reflexivity.
    + destruct (IH Hin) as (before & after & ->).
      exists (q ++ sep ++ before), after. rewrite <- !app_assoc. reflexivity.
Qed.

(** X5: the HTML export holds the content of every file as it is, between
    the tags [<pre>] and [</pre>]: nothing in it is escaped. *)
Theorem export_html_embeds_content (tree : list (Entry float)) (files : list FileRecord) :
  Forall (fun f =>
            str_contains (py "<pre>" ++ content f ++ py "</pre>")
                         (export_html tree files) = true) files.
Proof.
  apply Forall_forall. intros f Hf. unfold export_html.
  match goal with
  | |- str_contains ?needle (join [chr_LF] ?lines) = true =>
      assert (Hline : In (py "<h2>" ++ file_path f ++ py "</h2>" ++ needle) lines)
  end.
  { destruct files as [|f0 files0]; [contradiction|].
    apply in_or_app. left. apply in_or_app. right.
    apply in_or_app. right. apply in_or_app. left.
    apply in_map_iff. exists f. split; [reflexivity|exact Hf]. }
  apply (join_part [chr_LF]) in Hline. destruct Hline as (before & after & ->).
  replace (before ++ (py "<h2>" ++ file_path f ++ py "</h2>" ++
                      py "<pre>" ++ content f ++ py "</pre>") ++ after)
    with ((before ++ py "<h2>" ++ file_path f ++ py "</h2>") ++
          (py "<pre>" ++ content f ++ py "</pre>") ++ after)
    by (rewrite <- !app_assoc; reflexivity).
  apply str_contains_middle.
Qed.

(** *** [explain_format] *)

(** X9: [explain_format] answers "Select a valid format" exactly for the
    names that are not registered. *)
Theorem explain_format_unknown (fmt : str) :
  explain_format float_repr json_dumps yaml_dump fmt = py "Select a valid format"
  <-> ~ In fmt registered_formats.
Proof.
  unfold explain_format. split.
  - destruct (dict_get fmt (_FORMATS float_repr json_dumps yaml_dump)) as [info|] eqn:Hget.
    + intros H. discriminate H.
    + intros _ Hin. revert Hget. clear - Hin.
      unfold registered_formats in Hin. cbn [In] in Hin.
      repeat (destruct Hin as [<-|Hin]; [discriminate|]). contradiction.
  - intros Hnot. rewrite dict_get_absent; [reflexivity|].
    rewrite formats_registered. exact Hnot.
Qed.

(** *** The excerpt of the CSV and TSV exports *)

(** X8: an excerpt has at most 203 characters and starts with the
    first 200 characters of the content; a content of at most 200
    characters is its own excerpt. *)
Theorem excerpt_of_bounded (text : str) :
  length (excerpt_of text) <= 203 /\
  firstn 200 (excerpt_of text) = firstn 200 text /\
  excerpt_of (firstn 200 text) = firstn 200 text.
Proof.
  split; [|split].
  - unfold excerpt_of. destruct (200 <? length text) eqn:Hlong.
    + apply Nat.ltb_lt in Hlong.
      rewrite length_app, length_firstn. change (length (py "...")) with 3. lia.
    + apply Nat.ltb_ge in Hlong. lia.
  - unfold excerpt_of. destruct (200 <? length text) eqn:Hlong; [|reflexivity].
    apply Nat.ltb_lt in Hlong.
    assert (Hlen : length (firstn 200 text) = 200)
      by (rewrite length_firstn; lia).
    rewrite firstn_app, Hlen. replace (200 - 200) with 0 by reflexivity.
    rewrite firstn_O, app_nil_r. apply firstn_firstn.
  - unfold excerpt_of.
    replace (200 <? length (firstn 200 text)) with false; [reflexivity|].
    symmetry. apply Nat.ltb_ge. rewrite length_firstn. lia.
Qed.

(** *** The tree builder, entry by entry *)

Lemma rglob_parts_nonempty (root p : Path float) :
  In p (rglob root) -> parts p <> [].
Proof.
  unfold rglob. intros Hin. apply in_flat_map in Hin.
  destruct Hin as ([rel children] & _ & Hp).
  apply in_map_iff in Hp. destruct Hp as (c & <- & _).
  simpl. destruct rel; discriminate.
Qed.

Lemma build_tree_loop (items : list (Path float)) :
  Forall (fun p => parts p <> []) items ->
  forall (acc : list (Entry float)) (w : world),
  exists made,
    for_each items acc
      (fun tree p =>
         match parts p with
         | [] => ret tree
         | _ :: _ =>
             try_except
               (let rel := relative_str p in
                st <- stat p ;;
                ret (tree ++
                     [ {| path := rel; is_dir := is_dir_path p;
                          name := path_name p; size := st_size st;
                          hr_size := human_readable_size (st_size st);
                          modified := st_mtime st |} ]))
               (fun e =>
                  print (py "Skipping " ++ path_str p ++ py ": " ++ e) ;;
                  ret tree)
         end) w
    = (Val (acc ++ made),
       {| stdout := stdout w ++
                    map (@skip_message float)
                        (filter (fun p => negb (stat_ok p)) items);
          stderr := stderr w; written := written w |}) /\
    map (@path float) made = map (@relative_str float) (filter (@stat_ok float) items) /\
    Forall (fun e => hr_size e = human_readable_size (size e)) made.
Proof.
  intros Hitems.
  match goal with
  | |- forall acc w, exists made, for_each _ _ ?b _ = _ /\ _ => set (body := b)
  end.
  induction Hitems as [|p items Hp _ IH]; intros acc w.
  - exists []. cbn [for_each filter map]. rewrite !app_nil_r.
    destruct w; split; [reflexivity|]. split; [reflexivity|constructor].
  - cbn [for_each]. unfold bind at 1. unfold body at 1.
    destruct (parts p) as [|c cs] eqn:Hparts; [congruence|].
    unfold try_except, bind, stat, lift, ret, print.
    cbn [filter].
    assert (Hok : stat_ok p = stat_ok p) by reflexivity. unfold stat_ok at 2 in Hok.
    destruct (node_stat (target p)) as [st|e] eqn:Hst; rewrite Hok; cbn [negb map].
    + match goal with
      | |- context [for_each items (acc ++ [?entry])] =>
          destruct (IH (acc ++ [entry]) w) as (made & Hrun & Hpaths & Hsizes);
          exists (entry :: made)
      end.
      rewrite Hrun, <- app_assoc. split; [reflexivity|].
      split; [cbn [map path]; rewrite Hpaths; reflexivity|].
      constructor; [reflexivity|exact Hsizes].
    + match goal with
      | |- context [for_each items acc _ ?w1] =>
          destruct (IH acc w1) as (made & Hrun & Hpaths & Hsizes)
      end.
      exists made. rewrite Hrun. cbn [stdout stderr written].
      unfold skip_message at 2. rewrite Hst.
      rewrite <- app_assoc. split; [reflexivity|]. split; assumption.
Qed.

(** X10: when the root can be read, the tree holds the root entry and
    then one entry for each path of the traversal whose [stat] returns,
    in the order of the traversal; each path whose [stat] fails is left
    out and one line is printed for it; and every entry carries the
    readable form of its own size. *)
Theorem build_tree_lists_readable_entries (root : Path float) (w : world)
    (st : stat_result float) :
  node_stat (target root) = Val st ->
  exists tree,
    build_tree format_exc root w
    = (Val tree,
       {| stdout := stdout w ++
                    map (@skip_message float)
                        (filter (fun p => negb (stat_ok p)) (rglob root));
          stderr := stderr w; written := written w |}) /\
    map (@path float) tree =
      py "." :: map (@relative_str float) (filter (@stat_ok float) (rglob root)) /\
    Forall (fun e => hr_size e = human_readable_size (size e)) tree.
Proof.
  intros Hstat. unfold build_tree.
  unfold try_except at 1. unfold bind at 1. unfold stat at 1. unfold lift at 1.
  rewrite Hstat.
  match goal with
  | |- context [for_each (rglob root) [?entry] _] =>
      destruct (@build_tree_loop (rglob root)
                  (proj2 (Forall_forall _ _) (@rglob_parts_nonempty root))
                  [entry] w) as (made & Hrun & Hpaths & Hsizes);
      exists (entry :: made)
  end.
  cbv beta zeta in Hrun |- *. rewrite Hrun. split; [reflexivity|].
  split; [cbn [map path]; rewrite Hpaths; reflexivity|].
  constructor; [reflexivity|exact Hsizes].
Qed.

(** X11: when [stat] fails on the root, the tree is empty whatever lies
    below the root; the error is printed and the traceback goes to the
    error stream. *)
Theorem build_tree_unreadable_root (root : Path float) (w : world) (e : exn) :
  node_stat (target root) = Raise e ->
  build_tree format_exc root w
  = (Val [],
     {| stdout := stdout w ++ [py "Error building tree: " ++ e];
        stderr := stderr w ++ [format_exc e];
        written := written w |}).
Proof.
  intros Hstat. unfold build_tree.
  unfold try_except at 1. unfold bind at 1. unfold stat at 1. unfold lift at 1.
  rewrite Hstat. reflexivity.
Qed.

(** *** The orchestrator, case by case *)

(** X15: the orchestrator never raises, whatever the archive, the file
    system and the temporary directory do.  A result with a path has
    written exactly one output file, at that path, holding the content
    returned.  A result without a path has written no output file,
    unless it is the write of the export that raised after opening the
    file: then what that write left is at the output path, and the
    result is a processing error. *)
Theorem process_and_save_returns (env : environment float)
    (completion : list (Path float) -> list (Path float))
    (source local_path : str) (zip_file : option (upload float))
    (action fmt : str) (w : world) :
  exists (res : option str * str) (w' : world),
    process_and_save float_repr isalnum isdecimal lower decode_utf8 format_exc
      json_dumps yaml_dump env completion source local_path zip_file action fmt w
      = (Val res, w') /\
    match fst res with
    | None =>
        (is_prefix (py "Error: ") (snd res) ||
         is_prefix (py "Processing error: ") (snd res)) = true /\
        (written w' = written w \/
         exists out_path content e partial,
           write_error env out_path content = Some e /\
           write_leaves env out_path content = Some partial /\
           written w' = written w ++ [(out_path, partial)])
    | Some out_path => written w' = written w ++ [(out_path, snd res)]
    end.
Proof.
  destruct (process_and_save_cases env completion source local_path zip_file
              action fmt w) as (res & w' & Hrun & Hres).
  exists res, w'. split; [exact Hrun|].
  destruct (fst res) as [out_path|].
  - destruct Hres as (f & tree & files & _ & _ & _ & Hw). exact Hw.
  - destruct Hres as [[Hw|(f & out_path & content & e & partial & _ & He & Hl & Hw)] Hmsg];
      (split; [exact Hmsg|]); [left; exact Hw|].
    right. exists out_path, content, e, partial. repeat split; assumption.
Qed.


(** X17: with the source "Upload ZIP", a missing upload is reported as
    "Error: no ZIP uploaded" and an archive that cannot be extracted as a
    processing error with the text of the exception and the traceback; in
    both cases the local path is not looked at, nothing is printed and
    no output file is written. *)
Theorem zip_upload_errors (env : environment float)
    (completion : list (Path float) -> list (Path float))
    (source local_path : str) (failure : option exn)
    (action fmt : str) (w : world) :
  str_eqb source (py "Upload ZIP") = true ->
  process_and_save float_repr isalnum isdecimal lower decode_utf8 format_exc
    json_dumps yaml_dump env completion source local_path
    match failure with Some e => Some (Raise e) | None => None end
    action fmt w
  = (Val (None,
          match failure with
          | None => py "Error: no ZIP uploaded"
          | Some e => py "Processing error: " ++ e ++ [chr_LF] ++ format_exc e
          end), w).
Proof.
  intros Hsource. unfold process_and_save, try_except. rewrite Hsource.
  destruct failure; reflexivity.
Qed.

(** X18: an archive extracted to a directory is treated as that directory
    given as a local path: when the reads of the two runs complete in the
    same order, the runs return the same result, print the same lines and
    write the same output file. *)
Theorem zip_upload_like_local_path (env : environment float)
    (completion : list (Path float) -> list (Path float))
    (source source' local_path local_path' : str)
    (text : str) (n : node float) (zip_file' : option (upload float))
    (action fmt : str) (w : world) :
  str_eqb source (py "Upload ZIP") = true ->
  str_eqb source' (py "Upload ZIP") = false ->
  resolve env local_path' = Some (text, n) ->
  process_and_save float_repr isalnum isdecimal lower decode_utf8 format_exc
    json_dumps yaml_dump env completion source local_path
    (Some (Val (text, n))) action fmt w
  = process_and_save float_repr isalnum isdecimal lower decode_utf8 format_exc
      json_dumps yaml_dump env completion source' local_path' zip_file'
      action fmt w.
Proof.
  intros Hzip Hlocal Hresolve. unfold process_and_save.
  rewrite Hzip, Hlocal, Hresolve. reflexivity.
Qed.

(** X19: on a local path that resolves to a directory, with a registered
    format: when the builders the action asks for return a tree and
    files, the run exports them with the exporter of the format and
    writes the export to the file named after the root (or "output")
    with the extension of the format, in the temporary directory; the
    path and the content are returned.  When the write raises, a
    processing error with the text of the exception and the traceback is
    returned instead, and the output path holds what the failed write
    left, if it opened the file. *)
Theorem process_and_save_local_run (env : environment float)
    (completion : list (Path float) -> list (Path float))
    (source local_path : str) (zip_file : option (upload float))
    (action fmt : str) (w w1 w2 : world)
    (text : str) (D : node float) (f : format float)
    (tree : list (Entry float)) (files : list FileRecord) :
  str_eqb source (py "Upload ZIP") = false ->
  resolve env local_path = Some (text, D) ->
  is_dir_path (root_path text D) = true ->
  dict_get fmt (_FORMATS float_repr json_dumps yaml_dump) = Some f ->
  (if str_contains (py "Tree") action
   then build_tree format_exc (root_path text D) else ret []) w
    = (Val tree, w1) ->
  (if str_contains (py "Extract Code") action
   then build_files isalnum isdecimal lower decode_utf8 completion
          (root_path text D)
   else ret []) w1 = (Val files, w2) ->
  process_and_save float_repr isalnum isdecimal lower decode_utf8 format_exc
    json_dumps yaml_dump env completion source local_path zip_file action fmt w
  = let content := exporter f tree files in
    let out_path :=
      gettempdir env ++ [os_sep] ++
      str_or (node_name D) (py "output") ++ py "." ++ ext f in
    match write_error env out_path content with
    | None =>
        (Val (Some out_path, content),
         {| stdout := stdout w2; stderr := stderr w2;
            written := written w2 ++ [(out_path, content)] |})
    | Some e =>
        (Val (None, py "Processing error: " ++ e ++ [chr_LF] ++ format_exc e),
         match write_leaves env out_path content with
         | Some partial =>
             {| stdout := stdout w2; stderr := stderr w2;
                written := written w2 ++ [(out_path, partial)] |}
         | None => w2
         end)
    end.
Proof.
  intros Hsource Hresolve Hdir Hfmt Htree Hfiles.
  unfold process_and_save, try_except. rewrite Hsource, Hresolve.
  unfold export_root. rewrite Hdir. cbn [negb].
  unfold bind at 1. rewrite Htree. unfold bind at 1. rewrite Hfiles.
  rewrite Hfmt. cbv zeta. unfold bind, write_text, path_name, root_path.
  cbn [target].
  destruct (write_error env _ _); reflexivity.
Qed.

(** *** JSON Lines *)

Lemma count_char_absent (c : char) (s : str) :
  mem_char c s = false -> count_char c s = 0.
Proof.
  unfold mem_char, count_char. induction s as [|d s IH]; [reflexivity|].
  simpl. intros H. apply orb_false_iff in H. destruct H as [Hd Hs].
  rewrite Hd. apply IH. exact Hs.
Qed.

Lemma count_char_app (c : char) (s t : str) :
  count_char c (s ++ t) = count_char c s + count_char c t.
Proof. unfold count_char. rewrite filter_app, length_app. reflexivity. Qed.

Lemma count_char_join (c : char) (parts : list str) :
  Forall (fun p => mem_char c p = false) parts ->
  count_char c (join [c] parts) = length parts - 1.
Proof.
  induction parts as [|p [|q parts] IH]; intros Hparts.
  - reflexivity.
  - inversion Hparts; subst. simpl. apply count_char_absent. assumption.
  - change (join [c] (p :: q :: parts)) with (p ++ [c] ++ join [c] (q :: parts)).
    inversion Hparts; subst.
    rewrite !count_char_app, IH by assumption.
    rewrite (count_char_absent c p) by assumption.
    unfold count_char at 1. simpl. rewrite N.eqb_refl. simpl. lia.
Qed.

(** X6: when no serialised object holds a line feed (as with [json.dumps]
    without indentation), the JSON Lines export has one line per entry
    followed by one line per file: with an entry or a file, the line
    feeds are one less than the entries and files together; with
    neither, the export is the empty text. *)
Theorem export_jsonl_one_line_each (tree : list (Entry float)) (files : list FileRecord) :
  Forall (fun e =>
            mem_char chr_LF
              (json_dumps None
                 (VDict [(py "type", VStr (py "structure"));
                         (py "data", entry_dict e)])) = false) tree ->
  Forall (fun f =>
            mem_char chr_LF
              (json_dumps None
                 (VDict [(py "type", VStr (py "content"));
                         (py "data", @file_dict float f)])) = false) files ->
  export_jsonl json_dumps [] [] = [] /\
  (0 < length tree + length files ->
   count_char chr_LF (export_jsonl json_dumps tree files) + 1
   = length tree + length files).
Proof.
  intros Htree Hfiles. split; [reflexivity|]. intros Hsome.
  unfold export_jsonl.
  rewrite count_char_join.
  - rewrite length_app, !length_map. lia.
  - apply Forall_app. split; apply Forall_map; assumption.
Qed.

(** *** The width of wrapped lines *)

Lemma take_fitting_bound (width : nat) (chunks : list str) :
  forall cur_line cur_len cur_line' cur_len' rest,
    take_fitting width cur_line cur_len chunks = (cur_line', cur_len', rest) ->
    cur_len = length (concat cur_line) ->
    cur_len <= width ->
    length (concat cur_line') <= width /\ incl rest chunks.
Proof.
  induction chunks as [|c chunks IH]; simpl; intros cl n cl' n' rest H Hn Hw.
  - inversion H; subst. split; [exact Hw|apply incl_refl].
  - destruct (n + length c <=? width) eqn:Hfit.
    + apply Nat.leb_le in Hfit. apply IH in H.
      * destruct H as [H1 H2]. split; [exact H1|].
        apply incl_tl. exact H2.
      * rewrite concat_app, length_app. simpl. rewrite app_nil_r. lia.
      * exact Hfit.
    + inversion H; subst. split; [exact Hw|apply incl_refl].
Qed.

Lemma removelast_concat_length (parts : list str) :
  length (concat (removelast parts)) <= length (concat parts).
Proof.
  destruct parts as [|p parts]; [reflexivity|].
  rewrite (app_removelast_last [] (l := p :: parts)) at 2 by discriminate.
  rewrite concat_app, length_app. lia.
Qed.

Lemma drop_trailing_blank_length (parts : list str) :
  length (concat (drop_trailing_blank parts)) <= length (concat parts).
Proof.
  unfold drop_trailing_blank. destruct (rev parts) as [|c rc]; [lia|].
  destruct (strip_is_empty c); [apply removelast_concat_length|lia].
Qed.

(** A line is made of chunks that fit the width together, or of one
    chunk. *)
Lemma wrap_line_bound (width : nat) (chunks lines cur_line rest : list str) :
  wrap_line width chunks lines = (cur_line, rest) ->
  incl rest chunks /\
  (cur_line = [] \/ length (concat cur_line) <= width \/
   exists d, cur_line = [d] /\ In d chunks).
Proof.
  unfold wrap_line.
  set (chunks1 := match chunks with
                  | [] => chunks
                  | c :: rest0 =>
                      match lines with
                      | [] => chunks
                      | _ :: _ => if strip_is_empty c then rest0 else chunks
                      end
                  end).
  assert (H1 : incl chunks1 chunks).
  { subst chunks1. destruct chunks as [|c rest0]; [apply incl_refl|].
    destruct lines; [apply incl_refl|].
    destruct (strip_is_empty c); [apply incl_tl|]; apply incl_refl. }
  destruct (take_fitting width [] 0 chunks1) as [[cl n] r] eqn:Hfit.
  apply take_fitting_bound in Hfit; [|reflexivity|lia].
  destruct Hfit as [Hcl Hr].
  assert (Hrc : incl r chunks) by (eapply incl_tran; eassumption).
  destruct r as [|d r'].
  - intros H. inversion H; subst. split; [exact Hrc|].
    right; left. etransitivity; [apply drop_trailing_blank_length|exact Hcl].
  - destruct (width <? length d).
    + unfold _handle_long_word. destruct cl as [|x cl].
      * intros H. inversion H; subst. split.
        -- intros y Hy. apply Hrc. right; exact Hy.
        -- unfold drop_trailing_blank. cbn [rev app].
           destruct (strip_is_empty d); [left; reflexivity|].
           right; right. exists d. split; [reflexivity|].
           apply Hrc. left; reflexivity.
      * intros H. inversion H; subst. split; [exact Hrc|].
        right; left. etransitivity; [apply drop_trailing_blank_length|exact Hcl].
    + intros H. inversion H; subst. split; [exact Hrc|].
      right; left. etransitivity; [apply drop_trailing_blank_length|exact Hcl].
Qed.

Lemma wrap_loop_bound (width : nat) (all_chunks chunks lines : list str) :
  incl chunks all_chunks ->
  Forall (fun line => length line <= width \/ In line all_chunks) lines ->
  Forall (fun line => length line <= width \/ In line all_chunks)
         (wrap_loop width chunks lines).
Proof.
  revert all_chunks. funelim (wrap_loop width chunks lines);
    intros all_chunks Hincl Hlines.
  - exact Hlines.
  - pose proof (wrap_line_bound _ _ _ Heq) as [Hrest Hline].
    apply H.
    + eapply incl_tran; eassumption.
    + destruct cur_line as [|l cur_line]; [exact Hlines|].
      apply Forall_app. split; [exact Hlines|]. constructor; [|constructor].
      destruct Hline as [Hline|[Hline|(d & Hd & Hin)]].
      * discriminate Hline.
      * left. exact Hline.
      * right. rewrite Hd. cbn [concat]. rewrite app_nil_r.
        apply Hincl. exact Hin.
Qed.

(** X13: every line of the normalised text has at most 120 characters,
    unless it is a single chunk of a line of the text, a word that
    wrapping does not break. *)
Theorem clean_lines_width (text : str) :
  Forall (fun out =>
            length out <= 120 \/
            exists line, In line (splitlines text) /\
                         In out (_split_chunks isalnum isdecimal line))
         (clean_lines isalnum isdecimal text).
Proof.
  rewrite clean_lines_flat_map. apply Forall_flat_map.
  apply Forall_forall. intros line Hline.
  destruct (120 <? length line) eqn:Hlong.
  - unfold wrap, _wrap_chunks.
    pose proof (@wrap_loop_bound 120 (_split_chunks isalnum isdecimal line)
                  (_split_chunks isalnum isdecimal line) []
                  (incl_refl _) (Forall_nil _)) as Hbound.
    eapply Forall_impl; [|exact Hbound].
    intros out [Hout|Hout]; [left; exact Hout|right].
    exists line. split; assumption.
  - apply Nat.ltb_ge in Hlong. constructor; [left; exact Hlong|constructor].
Qed.

(** *** Wrapping, white space apart *)

Lemma strip_is_empty_app (s t : str) :
  strip_is_empty (s ++ t) = strip_is_empty s && strip_is_empty t.
Proof. apply forallb_app. Qed.

Lemma woven_extend (text gap : str) (lines : list str) :
  woven text lines -> strip_is_empty gap = true -> woven (text ++ gap) lines.
Proof.
  intros Hw Hgap. induction Hw as [g Hg|g l t ls Hg Hw IH].
  - apply woven_end. rewrite strip_is_empty_app, Hg, Hgap. reflexivity.
  - rewrite <- !app_assoc. apply woven_line; assumption.
Qed.

Lemma woven_snoc (text line gap : str) (lines : list str) :
  woven text lines -> strip_is_empty gap = true ->
  woven (text ++ line ++ gap) (lines ++ [line]).
Proof.
  intros Hw Hgap. induction Hw as [g Hg|g l t ls Hg Hw IH].
  - cbn [app]. apply woven_line; [exact Hg|]. apply woven_end. exact Hgap.
  - rewrite <- !app_assoc. cbn [app]. apply woven_line; assumption.
Qed.

Lemma woven_chars (text : str) (lines : list str) :
  woven text lines ->
  forall (line : str) (c : char), In line lines -> In c line -> In c text.
Proof.
  intros Hw. induction Hw as [g Hg|g l t ls Hg Hw IH]; intros line c Hline Hc.
  - contradiction Hline.
  - apply in_or_app. right. apply in_or_app.
    destruct Hline as [<-|Hline]; [left; exact Hc|right].
    eapply IH; eassumption.
Qed.

Lemma drop_trailing_blank_text (cur_line : list str) :
  exists gap : str,
    strip_is_empty gap = true /\
    concat cur_line = concat (drop_trailing_blank cur_line) ++ gap.
Proof.
  unfold drop_trailing_blank.
  destruct (rev cur_line) as [|c rc] eqn:Hrev.
  - exists []. split; [reflexivity|]. rewrite app_nil_r. reflexivity.
  - destruct (strip_is_empty c) eqn:Hblank.
    + exists c. split; [exact Hblank|].
      assert (Hcl : cur_line = rev rc ++ [c]).
      { rewrite <- (rev_involutive cur_line), Hrev. reflexivity. }
      rewrite Hcl, removelast_last, concat_app. cbn [concat].
      rewrite app_nil_r. reflexivity.
    + exists []. split; [reflexivity|]. rewrite app_nil_r. reflexivity.
Qed.

(** One pass of the loop, as text: the line built is a piece of the
    text of the chunks, with blank text dropped before and after it. *)
Lemma wrap_line_text (width : nat) (chunks lines cur_line rest : list str) :
  wrap_line width chunks lines = (cur_line, rest) ->
  exists before after : str,
    strip_is_empty before = true /\ strip_is_empty after = true /\
    concat chunks = before ++ concat cur_line ++ after ++ concat rest.
Proof.
  unfold wrap_line.
  set (chunks1 := match chunks with
                  | [] => chunks
                  | c :: rest0 =>
                      match lines with
                      | [] => chunks
                      | _ :: _ => if strip_is_empty c then rest0 else chunks
                      end
                  end).
  assert (H1 : exists before : str,
             strip_is_empty before = true /\
             concat chunks = before ++ concat chunks1).
  { subst chunks1. destruct chunks as [|c rest0]; [exists []; split; reflexivity|].
    destruct lines; [exists []; split; reflexivity|].
    destruct (strip_is_empty c) eqn:Hc; [|exists []; split; reflexivity].
    exists c. split; [exact Hc|reflexivity]. }
  destruct H1 as (before & Hbefore & H1).
  destruct (take_fitting width [] 0 chunks1) as [[cl n] r] eqn:Hfit.
  apply take_fitting_chunks in Hfit. simpl in Hfit.
  assert (H2 : forall cl1 r3,
             match r with
             | c :: _ =>
                 if width <? length c then _handle_long_word r cl else (cl, r)
             | [] => (cl, r)
             end = (cl1, r3) -> cl1 ++ r3 = chunks1).
  { intros cl1 r3 H. destruct r as [|c r'].
    - inversion H; subst. exact Hfit.
    - destruct (width <? length c).
      + unfold _handle_long_word in H. destruct cl; inversion H; subst; exact Hfit.
      + inversion H; subst. exact Hfit. }
  destruct (match r with
            | c :: _ =>
                if width <? length c then _handle_long_word r cl else (cl, r)
            | [] => (cl, r)
            end) as [cl1 r3].
  specialize (H2 _ _ eq_refl).
  intros H. inversion H; subst cur_line rest.
  destruct (drop_trailing_blank_text cl1) as (after & Hafter & Hdrop).
  exists before, after. split; [exact Hbefore|]. split; [exact Hafter|].
  rewrite H1, <- H2, concat_app, Hdrop, <- app_assoc. reflexivity.
Qed.

Lemma wrap_loop_woven (width : nat) (chunks lines : list str) :
  forall consumed : str,
    woven consumed lines ->
    woven (consumed ++ concat chunks) (wrap_loop width chunks lines).
Proof.
  funelim (wrap_loop width chunks lines); intros consumed Hw.
  - cbn [concat]. rewrite app_nil_r. exact Hw.
  - destruct (wrap_line_text _ _ _ Heq) as (before & after & Hb & Ha & Htext).
    rewrite Htext.
    assert (Hassoc : consumed ++ before ++ concat cur_line ++ after ++ concat rest
                     = (consumed ++ before ++ concat cur_line ++ after) ++ concat rest).
    { rewrite <- !app_assoc. reflexivity. }
    rewrite Hassoc. apply H.
    destruct cur_line as [|l cur_line].
    + cbn [concat app]. rewrite app_assoc.
      apply woven_extend; [apply woven_extend; assumption|exact Ha].
    + rewrite app_assoc. apply woven_snoc; [|exact Ha].
      apply woven_extend; assumption.
Qed.

(** The output lines of a wrapped line are pieces of the line as munged,
    in their order; what lies before, between and after them is blank. *)
Lemma wrap_woven (line : str) (width : nat) :
  woven (_munge_whitespace line) (wrap isalnum isdecimal line width).
Proof.
  unfold wrap, _wrap_chunks. rewrite <- split_chunks_text.
  apply (@wrap_loop_woven width (_split_chunks isalnum isdecimal line) [] []).
  apply woven_end. reflexivity.
Qed.

Lemma drop_trailing_blank_cons (x : str) (cur_line : list str) :
  cur_line <> [] ->
  drop_trailing_blank (x :: cur_line) = x :: drop_trailing_blank cur_line.
Proof.
  intros Hne. unfold drop_trailing_blank. cbn [rev].
  destruct (rev cur_line) as [|c rc] eqn:Hrev.
  - apply (f_equal (@rev str)) in Hrev. rewrite rev_involutive in Hrev.
    contradiction Hne.
  - cbn [app]. destruct (strip_is_empty c); [|reflexivity].
    destruct cur_line as [|y ys]; [contradiction Hne; reflexivity|reflexivity].
Qed.

(** Single-spaced chunks cut in two: the first part without a space at
    its end is a line, and the rest, the space at the cut apart, is
    single-spaced again. *)
Lemma single_spaced_split (n : nat) :
  forall a b : list str,
    length a <= n ->
    a <> [] ->
    single_spaced (a ++ b) = true ->
    drop_trailing_blank a <> [] /\
    ((b = [] /\ concat (drop_trailing_blank a) = concat (a ++ b)) \/
     exists b' : list str,
       single_spaced b' = true /\
       (b = b' \/ b = [chr_SPACE] :: b') /\
       concat (a ++ b) = concat (drop_trailing_blank a) ++ [chr_SPACE] ++ concat b').
Proof.
  induction n as [|n IH]; intros a b Hlen Hne Hss.
  - destruct a; [contradiction Hne; reflexivity|simpl in Hlen; lia].
  - destruct a as [|w [|x a2]]; [contradiction Hne; reflexivity| |].
    + (* one chunk taken *)
      destruct b as [|x b2].
      * cbn [app single_spaced] in Hss.
        unfold drop_trailing_blank. cbn [rev app].
        apply negb_true_iff in Hss. rewrite Hss.
        split; [discriminate|]. left. split; reflexivity.
      * cbn [app single_spaced] in Hss.
        rewrite !andb_true_iff in Hss. destruct Hss as [[Hw Hx] Hrest].
        apply negb_true_iff in Hw. apply str_eqb_eq in Hx. subst x.
        unfold drop_trailing_blank. cbn [rev app]. rewrite Hw.
        split; [discriminate|]. right. exists b2.
        split; [exact Hrest|]. split; [right; reflexivity|].
        cbn [app concat]. rewrite app_nil_r. reflexivity.
    + cbn [app single_spaced] in Hss.
      rewrite !andb_true_iff in Hss. destruct Hss as [[Hw Hx] Hrest].
      apply negb_true_iff in Hw. apply str_eqb_eq in Hx. subst x.
      destruct a2 as [|y a3].
      * (* a word and the space after it *)
        unfold drop_trailing_blank. cbn [rev app].
        change (strip_is_empty [chr_SPACE]) with true. cbv iota.
        cbn [removelast].
        split; [discriminate|]. right. exists b.
        split; [exact Hrest|]. split; [left; reflexivity|].
        cbn [app concat]. rewrite app_nil_r. reflexivity.
      * assert (Hlen' : length (y :: a3) <= n) by (simpl in Hlen |- *; lia).
        destruct (IH (y :: a3) b Hlen' ltac:(discriminate) Hrest)
          as [Hcur Hcases].
        do 2 rewrite drop_trailing_blank_cons by discriminate.
        split; [discriminate|].
        destruct Hcases as [[Hb Hall]|(b' & Hb' & Hb & Hall)].
        -- left. split; [exact Hb|].
           cbn [app concat]. cbn [app concat] in Hall. rewrite Hall. reflexivity.
        -- right. exists b'. split; [exact Hb'|]. split; [exact Hb|].
           cbn [app concat]. cbn [app concat] in Hall. rewrite Hall.
           rewrite <- !app_assoc. reflexivity.
Qed.

Lemma take_fitting_prefix (width : nat) (chunks : list str) :
  forall (cur_line : list str) (cur_len : nat) cur_line' cur_len' rest,
    take_fitting width cur_line cur_len chunks = (cur_line', cur_len', rest) ->
    exists taken : list str, cur_line' = cur_line ++ taken.
Proof.
  induction chunks as [|c chunks IH]; simpl; intros cl n cl' n' rest H.
  - inversion H. exists []. rewrite app_nil_r. reflexivity.
  - destruct (n + length c <=? width).
    + apply IH in H. destruct H as (taken & ->).
      exists (c :: taken). rewrite <- app_assoc. reflexivity.
    + inversion H. exists []. rewrite app_nil_r. reflexivity.
Qed.

(** One pass of the loop on single-spaced chunks. *)
Lemma wrap_line_single_spaced (width : nat) (chunks lines : list str) :
  single_spaced chunks = true ->
  exists cur_line rest : list str,
    wrap_line width chunks lines = (cur_line, rest) /\
    cur_line <> [] /\
    length rest < length chunks /\
    ((rest = [] /\ concat cur_line = concat chunks) \/
     exists rest' : list str,
       single_spaced rest' = true /\
       (rest = rest' \/ rest = [chr_SPACE] :: rest') /\
       concat chunks = concat cur_line ++ [chr_SPACE] ++ concat rest').
Proof.
  intros Hss. unfold wrap_line.
  destruct chunks as [|w tail]; [discriminate Hss|].
  assert (Hw : strip_is_empty w = false).
  { destruct tail; cbn [single_spaced] in Hss.
    - apply negb_true_iff. exact Hss.
    - rewrite !andb_true_iff in Hss. apply negb_true_iff. apply Hss. }
  assert (H1 : match w :: tail, lines with
               | c :: rest0, _ :: _ =>
                   if strip_is_empty c then rest0 else w :: tail
               | _, _ => w :: tail
               end = w :: tail).
  { destruct lines; [reflexivity|]. rewrite Hw. reflexivity. }
  rewrite H1. clear H1.
  destruct (take_fitting width [] 0 (w :: tail)) as [[cl n] r] eqn:Hfit.
  pose proof (take_fitting_chunks _ _ _ _ Hfit) as Hparts. cbn [app] in Hparts.
  assert (H2 : exists cl1 r3,
             match r with
             | c :: _ =>
                 if width <? length c then _handle_long_word r cl else (cl, r)
             | [] => (cl, r)
             end = (cl1, r3) /\ cl1 ++ r3 = w :: tail /\ cl1 <> []).
  { destruct cl as [|x cl'].
    - (* nothing fits: the first chunk is longer than the width *)
      cbn [app] in Hparts. subst r.
      cbn [take_fitting] in Hfit.
      destruct (0 + length w <=? width) eqn:Hfirst.
      + apply take_fitting_prefix in Hfit. destruct Hfit as (taken & Htaken).
        discriminate Htaken.
      + apply Nat.leb_gt in Hfirst. cbn [plus] in Hfirst.
        apply Nat.ltb_lt in Hfirst. rewrite Hfirst.
        exists [w], tail. split; [reflexivity|]. split; [reflexivity|discriminate].
    - exists (x :: cl'), r. split; [|split; [exact Hparts|discriminate]].
      destruct r as [|c r']; [reflexivity|].
      destruct (width <? length c); reflexivity. }
  destruct H2 as (cl1 & r3 & Hmatch & Hsplit & Hne).
  rewrite Hmatch.
  exists (drop_trailing_blank cl1), r3. split; [reflexivity|].
  rewrite <- Hsplit in Hss.
  destruct (@single_spaced_split (length cl1) cl1 r3 (le_n _) Hne Hss)
    as [Hcur Hcases].
  split; [exact Hcur|]. split.
  - rewrite <- Hsplit, length_app.
    destruct cl1; [contradiction Hne; reflexivity|simpl; lia].
  - rewrite <- Hsplit. exact Hcases.
Qed.

Lemma wrap_loop_skip_space (width : nat) (chunks lines : list str) :
  single_spaced chunks = true ->
  lines <> [] ->
  wrap_loop width ([chr_SPACE] :: chunks) lines = wrap_loop width chunks lines.
Proof.
  intros Hss Hlines.
  assert (Hsolid : starts_solid chunks = true).
  { destruct chunks as [|w [|x rest]]; [discriminate Hss|exact Hss|].
    cbn [single_spaced] in Hss. rewrite !andb_true_iff in Hss. apply Hss. }
  destruct (wrap_line width chunks lines) as [cur_line rest] eqn:Hline.
  rewrite (@wrap_loop_pass width ([chr_SPACE] :: chunks) lines cur_line rest).
  - rewrite (@wrap_loop_pass width chunks lines cur_line rest).
    + reflexivity.
    + destruct chunks; [discriminate Hss|discriminate].
    + exact Hline.
  - discriminate.
  - rewrite wrap_line_skip_blank; [exact Hline|reflexivity|exact Hsolid|exact Hlines].
Qed.

Lemma join_snoc (sep line : str) (lines : list str) :
  join sep (lines ++ [line]) =
  match lines with
  | [] => line
  | _ :: _ => join sep lines ++ sep ++ line
  end.
Proof.
  induction lines as [|p [|q lines] IH]; [reflexivity|reflexivity|].
  change (join sep ((p :: q :: lines) ++ [line]))
    with (p ++ sep ++ join sep ((q :: lines) ++ [line])).
  rewrite IH.
  change (join sep (p :: q :: lines)) with (p ++ sep ++ join sep (q :: lines)).
  rewrite <- !app_assoc. reflexivity.
Qed.

(** Wrapping single-spaced chunks breaks them at spaces only, one space
    for each break: the lines joined by single spaces are the text of
    the chunks. *)
Lemma wrap_loop_single_spaced (width n : nat) :
  forall chunks lines : list str,
    length chunks <= n ->
    single_spaced chunks = true ->
    join [chr_SPACE] (wrap_loop width chunks lines) =
    match lines with
    | [] => concat chunks
    | _ :: _ => join [chr_SPACE] lines ++ [chr_SPACE] ++ concat chunks
    end.
Proof.
  induction n as [|n IH]; intros chunks lines Hlen Hss.
  - destruct chunks; [discriminate Hss|simpl in Hlen; lia].
  - destruct (@wrap_line_single_spaced width chunks lines Hss)
      as (cur_line & rest & Hline & Hcur & Hshort & Hcases).
    assert (Hchunks : chunks <> []) by (destruct chunks; [discriminate Hss|discriminate]).
    rewrite (@wrap_loop_pass width chunks lines cur_line rest Hchunks Hline).
    destruct cur_line as [|l cur_line]; [contradiction Hcur; reflexivity|].
    set (line := concat (l :: cur_line)) in *.
    assert (Hnext : forall rest' : list str,
               length rest' < length chunks ->
               single_spaced rest' = true ->
               join [chr_SPACE] (wrap_loop width rest' (lines ++ [line])) =
               match lines with
               | [] => line ++ [chr_SPACE] ++ concat rest'
               | _ :: _ =>
                   join [chr_SPACE] lines ++ [chr_SPACE] ++
                   line ++ [chr_SPACE] ++ concat rest'
               end).
    { intros rest' Hlt Hss'. rewrite IH by (assumption || lia).
      rewrite join_snoc.
      destruct lines as [|p lines]; [reflexivity|].
      cbn [app]. rewrite <- !app_assoc. reflexivity. }
    destruct Hcases as [[Hrest Hall]|(rest' & Hss' & Hrest & Hall)].
    + subst rest. rewrite wrap_loop_equation_1, join_snoc, <- Hall.
      destruct lines; reflexivity.
    + rewrite Hall.
      destruct Hrest as [Hrest|Hrest]; subst rest.
      * apply Hnext; assumption.
      * rewrite wrap_loop_skip_space; [|exact Hss'|destruct lines; discriminate].
        apply Hnext; [simpl in Hshort; lia|exact Hss'].
Qed.

Lemma expandtabs_no_tab (tabsize : nat) (s : str) :
  forallb (fun c => negb (N.eqb c chr_TAB)) s = true ->
  forall col, expandtabs_from tabsize col s = s.
Proof.
  induction s as [|c s IH]; intros Hs col; [reflexivity|].
  cbn [forallb] in Hs. apply andb_true_iff in Hs. destruct Hs as [Hc Hs].
  apply negb_true_iff in Hc. cbn [expandtabs_from]. rewrite Hc.
  rewrite IH by exact Hs. reflexivity.
Qed.

Lemma munge_only_spaces (line : str) :
  only_spaces line = true -> _munge_whitespace line = line.
Proof.
  intros Honly. unfold _munge_whitespace, expandtabs.
  rewrite expandtabs_no_tab.
  - induction line as [|c line IH]; [reflexivity|].
    cbn [only_spaces forallb] in Honly.
    apply andb_true_iff in Honly. destruct Honly as [Hc Honly].
    cbn [map]. rewrite (IH Honly).
    destruct (re_ws c); [|reflexivity].
    cbn [negb orb] in Hc. apply N.eqb_eq in Hc. rewrite Hc. reflexivity.
  - unfold only_spaces in Honly. rewrite forallb_forall in Honly |- *.
    intros c Hc. specialize (Honly c Hc).
    destruct (N.eqb c chr_TAB) eqn:Htab; [|reflexivity].
    apply N.eqb_eq in Htab. subst c. discriminate Honly.
Qed.

Lemma unwrapped_no_line_feed (s : str) :
  ~ In chr_LF s -> unwrapped s = s.
Proof.
  intros Hs. unfold unwrapped. induction s as [|c s IH]; [reflexivity|].
  cbn [map]. rewrite IH by (intros H; apply Hs; right; exact H).
  destruct (N.eqb c chr_LF) eqn:Hc; [|reflexivity].
  apply N.eqb_eq in Hc. contradiction Hs. left. exact Hc.
Qed.

Lemma unwrapped_join (lines : list str) :
  (forall line, In line lines -> ~ In chr_LF line) ->
  unwrapped (join [chr_LF] lines) = join [chr_SPACE] lines.
Proof.
  induction lines as [|p [|q lines] IH]; intros Hlines; [reflexivity| |].
  - apply unwrapped_no_line_feed. apply Hlines. left; reflexivity.
  - change (join [chr_LF] (p :: q :: lines))
      with (p ++ [chr_LF] ++ join [chr_LF] (q :: lines)).
    change (join [chr_SPACE] (p :: q :: lines))
      with (p ++ [chr_SPACE] ++ join [chr_SPACE] (q :: lines)).
    unfold unwrapped in *. rewrite !map_app. f_equal.
    + apply unwrapped_no_line_feed. apply Hlines. left; reflexivity.
    + f_equal. apply IH. intros line Hline. apply Hlines. right; exact Hline.
Qed.

(** C1, amended: normalisation is lossless up to white space.  The
    characters that are not white space are kept, all of them and in
    their order.  The output is made line by line: a line of at most 120
    characters is kept as it is, so a text of such lines keeps its lines,
    joined by line feeds; a longer line is replaced by the lines wrapping
    makes of it.  These are pieces of the line with its tabs expanded and
    its white space written as spaces, in their order; what is left out
    before, between and after them is blank, and each has at most 120
    characters or is one chunk that wrapping does not break.  When the
    chunks of a line are words with single spaces between them and the
    line has no tab, joining its output lines with single spaces gives
    the line back; such a line alone as the text is the unwrapped
    normalised output. *)
Theorem normalize_lossless_up_to_white_space (text : str) :
  visible (normalize isalnum isdecimal text) = visible text /\
  (Forall (fun line => length line <= 120) (splitlines text) ->
   normalize isalnum isdecimal text = join [chr_LF] (splitlines text)) /\
  normalize isalnum isdecimal text =
    join [chr_LF]
      (flat_map (fun line => if 120 <? length line
                             then wrap isalnum isdecimal line 120
                             else [line])
                (splitlines text)) /\
  (forall line : str,
     woven (_munge_whitespace line) (wrap isalnum isdecimal line 120) /\
     Forall (fun out => length out <= 120 \/
                        In out (_split_chunks isalnum isdecimal line))
            (wrap isalnum isdecimal line 120) /\
     (only_spaces line = true ->
      single_spaced (_split_chunks isalnum isdecimal line) = true ->
      join [chr_SPACE] (wrap isalnum isdecimal line 120) = line)) /\
  (splitlines text = [text] ->
   only_spaces text = true ->
   single_spaced (_split_chunks isalnum isdecimal text) = true ->
   unwrapped (normalize isalnum isdecimal text) = text).
Proof.
  assert (Hprose : forall line : str,
             only_spaces line = true ->
             single_spaced (_split_chunks isalnum isdecimal line) = true ->
             join [chr_SPACE] (wrap isalnum isdecimal line 120) = line).
  { intros line Honly Hss. unfold wrap, _wrap_chunks.
    rewrite (@wrap_loop_single_spaced 120
               (length (_split_chunks isalnum isdecimal line))
               (_split_chunks isalnum isdecimal line) [] (le_n _) Hss).
    rewrite split_chunks_text. apply munge_only_spaces. exact Honly. }
  split; [|split; [|split; [|split]]].
  - unfold normalize. rewrite visible_join_lines, clean_lines_flat_map.
    unfold splitlines.
    pose proof (visible_splitlines text []) as Hlines.
    cbn [rev app] in Hlines. rewrite <- Hlines. clear Hlines.
    induction (splitlines_from [] text) as [|l lines IH]; [reflexivity|].
    cbn [flat_map map concat]. rewrite map_app, concat_app, IH. f_equal.
    destruct (120 <? length l).
    + rewrite <- visible_concat. apply wrap_visible.
    + simpl. rewrite app_nil_r. reflexivity.
  - intros Hshort. unfold normalize. f_equal.
    rewrite clean_lines_flat_map.
    induction Hshort as [|l lines Hl _ IH]; [reflexivity|].
    cbn [flat_map]. rewrite IH.
    apply Nat.ltb_ge in Hl. rewrite Hl. reflexivity.
  - unfold normalize. rewrite clean_lines_flat_map. reflexivity.
  - intros line. split; [apply wrap_woven|]. split; [|apply Hprose].
    unfold wrap, _wrap_chunks.
    apply (@wrap_loop_bound 120 (_split_chunks isalnum isdecimal line)
             (_split_chunks isalnum isdecimal line) []
             (incl_refl _) (Forall_nil _)).
  - intros Hlines Honly Hss.
    assert (Hfeed : ~ In chr_LF text).
    { intros Hin. unfold only_spaces in Honly.
      rewrite forallb_forall in Honly. specialize (Honly _ Hin).
      discriminate Honly. }
    unfold normalize. rewrite clean_lines_flat_map, Hlines.
    cbn [flat_map]. rewrite app_nil_r.
    destruct (120 <? length text).
    + rewrite unwrapped_join; [apply Hprose; assumption|].
      intros line Hline Hin. apply Hfeed.
      rewrite <- (munge_only_spaces text Honly).
      exact (woven_chars (wrap_woven text 120) line chr_LF Hline Hin).
    + cbn [join]. apply unwrapped_no_line_feed. exact Hfeed.
Qed.

(** *** The last line feed *)

Lemma splitlines_final_line_feed (text : str) :
  is_linebreak (last text chr_LF) = false ->
  forall cur, splitlines_from cur (text ++ [chr_LF]) = splitlines_from cur text.
Proof.
  assert (Hlen : forall n (t : str), length t <= n ->
            is_linebreak (last t chr_LF) = false ->
            forall cur, splitlines_from cur (t ++ [chr_LF]) = splitlines_from cur t).
  { induction n as [|n IH]; intros t Ht Hlast cur.
    - destruct t; [discriminate Hlast|simpl in Ht; lia].
    - destruct t as [|c [|d rest]]; [discriminate Hlast| |].
      + cbn [last] in Hlast. cbn [app splitlines_from]. rewrite Hlast.
        cbn [splitlines_from]. reflexivity.
      + assert (Hlast' : is_linebreak (last (d :: rest) chr_LF) = false)
          by exact Hlast.
        change ((c :: d :: rest) ++ [chr_LF]) with (c :: d :: (rest ++ [chr_LF])).
        change (c :: d :: (rest ++ [chr_LF])) with (c :: ((d :: rest) ++ [chr_LF])) at 1.
        cbn [splitlines_from].
        destruct (is_linebreak c).
        * f_equal. cbn [app].
          destruct (N.eqb c chr_CR && N.eqb d chr_LF) eqn:Hcrlf.
          -- apply IH; [simpl in Ht; lia|].
             destruct rest as [|e rest']; [|exact Hlast'].
             apply andb_true_iff in Hcrlf. destruct Hcrlf as [_ Hd].
             apply N.eqb_eq in Hd. subst d. discriminate Hlast'.
          -- apply (IH (d :: rest)); [simpl in Ht |- *; lia|exact Hlast'].
        * apply (IH (d :: rest)); [simpl in Ht |- *; lia|exact Hlast']. }
  intros Hlast. apply (Hlen (length text)); [lia|exact Hlast].
Qed.

(** X14: a line feed at the very end of a text is not kept: a text that
    does not end with a line boundary is normalised to the same output
    with and without a final line feed. *)
Theorem normalize_drops_final_line_feed (text : str) :
  is_linebreak (last text chr_LF) = false ->
  splitlines (text ++ [chr_LF]) = splitlines text /\
  normalize isalnum isdecimal (text ++ [chr_LF]) = normalize isalnum isdecimal text.
Proof.
  intros Hlast.
  assert (Hsplit : splitlines (text ++ [chr_LF]) = splitlines text)
    by (apply splitlines_final_line_feed; exact Hlast).
  split; [exact Hsplit|].
  unfold normalize, clean_lines. rewrite Hsplit. reflexivity.
Qed.

(** *** The extractor and the order of completion *)

Lemma build_files_records (items : list (Path float)) :
  forall (acc : list FileRecord) (w : world),
    for_each items acc
      (fun files p =>
         content <- read_and_clean isalnum isdecimal decode_utf8 p ;;
         match content with
         | Some content =>
             ret (files ++
                  [ {| file_path := relative_str p;
                       content := content;
                       syntax := match dict_get (lower (suffix p)) _SYNTAX_MAP with
                                 | Some s => s
                                 | None => []
                                 end |} ])
         | None => ret files
         end) w
    = (Val (acc ++ map (record_of isalnum isdecimal lower decode_utf8)
                       (filter (@classified_text float) items)), w).
Proof.
  induction items as [|p items IH]; intros acc w.
  - cbn [for_each filter map]. rewrite app_nil_r. reflexivity.
  - cbn [for_each]. unfold bind at 1. unfold bind at 1.
    rewrite read_and_clean_run. cbn [filter].
    assert (Hc : classified_text p =
                 match target p with
                 | File _ _ (Val bytes) =>
                     negb (existsb (Byte.eqb Byte.x00) (firstn 1024 bytes))
                 | _ => false
                 end) by reflexivity.
    destruct (target p) as [nm st [bytes|e]|nm st children] eqn:Htarget.
    + destruct (classified_text p).
      * unfold ret at 1. rewrite IH, <- app_assoc.
        cbn [map app]. repeat f_equal. unfold record_of. rewrite Htarget.
        reflexivity.
      * unfold ret at 1. apply IH.
    + rewrite Hc. unfold ret at 1. apply IH.
    + rewrite Hc. unfold ret at 1. apply IH.
Qed.

Lemma filter_permutation {A : Type} (keep : A -> bool) (l l' : list A) :
  Permutation l l' -> Permutation (filter keep l) (filter keep l').
Proof.
  induction 1 as [|x l l' _ IH|x y l|l l' l'' _ IH1 _ IH2]; simpl.
  - constructor.
  - destruct (keep x); [constructor|]; exact IH.
  - destruct (keep x), (keep y); try apply Permutation_refl. constructor.
  - eapply Permutation_trans; eassumption.
Qed.

(** X12: the order in which the reads complete changes the order of the
    records and nothing else: two runs of the extractor on the same root
    return the same records, each as often, and neither prints or
    writes. *)
Theorem build_files_order_insensitive
    (first second : list (Path float) -> list (Path float))
    (root : Path float) (w : world) :
  (forall l, Permutation (first l) l) ->
  (forall l, Permutation (second l) l) ->
  exists files files',
    build_files isalnum isdecimal lower decode_utf8 first root w = (Val files, w) /\
    build_files isalnum isdecimal lower decode_utf8 second root w = (Val files', w) /\
    Permutation files files'.
Proof.
  intros Hfirst Hsecond. unfold build_files.
  rewrite !build_files_records. cbn [app].
  eexists; eexists. split; [reflexivity|]. split; [reflexivity|].
  apply Permutation_map, filter_permutation.
  eapply Permutation_trans; [apply Hfirst|].
  apply Permutation_sym, Hsecond.
Qed.

(** *** More on the exports *)

Lemma fold_left_prefix {A : Type} (head : str) (step : A -> str) (items : list A) :
  forall out,
    is_prefix head out = true ->
    is_prefix head (fold_left (fun out x => out ++ step x) items out) = true.
Proof.
  assert (Happ : forall out tail,
             is_prefix head out = true -> is_prefix head (out ++ tail) = true).
  { induction head as [|c head IH]; intros [|d out] tail H; simpl in *;
      try reflexivity; try discriminate.
    apply andb_true_iff in H. destruct H as [-> H]. simpl. apply IH. exact H. }
  induction items as [|x items IH]; intros out H; [exact H|].
  simpl. apply IH. apply Happ. exact H.
Qed.

Lemma is_prefix_app_tail (head out tail : str) :
  is_prefix head out = true -> is_prefix head (out ++ tail) = true.
Proof.
  revert out. induction head as [|c head IH]; intros [|d out] H; simpl in *;
    try reflexivity; try discriminate.
  apply andb_true_iff in H. destruct H as [-> H]. simpl. apply IH. exact H.
Qed.

(** X7: whatever the tree and the files, the CSV export starts with the
    header row [Type,Path,Size,Modified] and the TSV export with the same
    row separated by tabs, each ended by carriage return and line
    feed. *)
Theorem tabular_exports_start_with_header
    (tree : list (Entry float)) (files : list FileRecord) :
  is_prefix (py "Type,Path,Size,Modified" ++ [chr_CR; chr_LF])
            (export_csv float_repr tree files) = true /\
  is_prefix (py "Type" ++ [chr_TAB] ++ py "Path" ++ [chr_TAB] ++ py "Size" ++
             [chr_TAB] ++ py "Modified" ++ [chr_CR; chr_LF])
            (export_tsv float_repr tree files) = true.
Proof.
  split.
  - unfold export_csv.
    match goal with
    | |- context [fold_left ?step tree ?header] =>
        assert (Hhead : is_prefix (py "Type,Path,Size,Modified" ++ [chr_CR; chr_LF])
                          (fold_left step tree header) = true)
          by (apply (fold_left_prefix _
                       (fun e => writerow float_repr chr_COMMA
                          [CStr (if is_dir e then py "DIR" else py "FILE");
                           CStr (path e); CInt (size e); CFloat (modified e)]));
              reflexivity)
    end.
    destruct files as [|f files]; [exact Hhead|].
    apply (fold_left_prefix _
             (fun f => writerow float_repr chr_COMMA
                         [CStr (file_path f); CStr (excerpt_of (content f))])).
    apply is_prefix_app_tail, is_prefix_app_tail. exact Hhead.
  - unfold export_tsv.
    match goal with
    | |- context [fold_left ?step tree ?header] =>
        assert (Hhead : is_prefix (py "Type" ++ [chr_TAB] ++ py "Path" ++ [chr_TAB] ++
                                   py "Size" ++ [chr_TAB] ++ py "Modified" ++
                                   [chr_CR; chr_LF])
                          (fold_left step tree header) = true)
          by (apply (fold_left_prefix _
                       (fun e => writerow float_repr chr_TAB
                          [CStr (if is_dir e then py "DIR" else py "FILE");
                           CStr (path e); CInt (size e); CFloat (modified e)]));
              reflexivity)
    end.
    destruct files as [|f files]; [exact Hhead|].
    apply (fold_left_prefix _
             (fun f => writerow float_repr chr_TAB
                         [CStr (file_path f); CStr (excerpt_of (content f))])).
    apply is_prefix_app_tail, is_prefix_app_tail. exact Hhead.
Qed.

(** X4: the Markdown export holds, for every file, a fenced block tagged
    with the syntax label of the file, or [text] when the label is empty,
    around the content as it is. *)
Theorem export_markdown_fenced_blocks
    (tree : list (Entry float)) (files : list FileRecord) :
  Forall (fun f =>
            str_contains
              (py "```" ++ str_or (syntax f) (py "text") ++ [chr_LF] ++
               content f ++ [chr_LF] ++ py "```")
              (export_markdown tree files) = true) files.
Proof.
  apply Forall_forall. intros f Hf. unfold export_markdown.
  set (needle := py "```" ++ str_or (syntax f) (py "text") ++ [chr_LF] ++
                 content f ++ [chr_LF] ++ py "```").
  match goal with
  | |- str_contains needle (str_or (join [chr_LF] ?lines) ?d) = true =>
      assert (Hline : In ((chr_LF :: py "## " ++ file_path f ++ [chr_LF]) ++ needle)
                         lines)
  end.
  { destruct files as [|f0 files0]; [contradiction|].
    apply in_or_app. right. right.
    apply in_map_iff. exists f. split; [|exact Hf].
    subst needle. cbv zeta. cbn [app]. rewrite <- !app_assoc. reflexivity. }
  pose proof (join_part [chr_LF] _ _ Hline) as (before & after & Hjoin).
  rewrite Hjoin.
  assert (Hor : forall s d : str, s <> [] -> str_or s d = s)
    by (intros [|c s] d Hs; [congruence|reflexivity]).
  rewrite Hor.
  - rewrite <- (app_assoc (chr_LF :: py "## " ++ file_path f ++ [chr_LF])).
    rewrite (app_assoc before). apply str_contains_middle.
  - destruct before; discriminate.
Qed.
End Properties.

(** * Examples and counterexamples *)

(** C1 as stated fails: two words three spaces apart on a line of 203
    characters come out on two lines with the spaces gone, so neither
    removing the line breaks nor joining the lines with a space gives the
    text back. *)
Lemma normalize_drops_white_space :
  without_line_breaks (normalize ascii_isalnum ascii_isdecimal spaced_line)
    <> without_line_breaks spaced_line /\
  unwrapped (normalize ascii_isalnum ascii_isdecimal spaced_line) <> spaced_line.
Proof.
  split; intros H; apply (f_equal (@length char)) in H; vm_compute in H;
    discriminate H.
Qed.

Lemma normalize_lossless_up_to_white_space_witness :
  normalize ascii_isalnum ascii_isdecimal short_text
    = join [chr_LF] (splitlines short_text) /\
  120 < length prose_line /\
  unwrapped (normalize ascii_isalnum ascii_isdecimal prose_line) = prose_line.
Proof.
  split; [|split].
  - refine (proj1 (proj2 (normalize_lossless_up_to_white_space
                            ascii_isalnum ascii_isdecimal short_text)) _).
    vm_compute. repeat constructor.
  - vm_compute. repeat constructor.
  - refine (proj2 (proj2 (proj2 (proj2 (normalize_lossless_up_to_white_space
                                          ascii_isalnum ascii_isdecimal
                                          prose_line)))) _ _ _);
      vm_compute; reflexivity.
Defined.

(** C2 as stated fails: a line that is one word of 300 letters stays one
    line of 300 characters. *)
Lemma single_word_line_stays_whole :
  length word_line = 300 /\
  splitlines word_line = [word_line] /\
  map (@length char) (clean_lines ascii_isalnum ascii_isdecimal word_line)
    <> [120; 120; 60].
Proof.
  split; [reflexivity|]. split; [vm_compute; reflexivity|].
  intros H. vm_compute in H. discriminate H.
Qed.

Lemma long_line_three_groups_witness :
  clean_lines ascii_isalnum ascii_isdecimal hyphen_line =
    [repeat 97%N 59 ++ [chr_HYPHEN] ++ repeat 98%N 59 ++ [chr_HYPHEN];
     repeat 99%N 119 ++ [chr_HYPHEN];
     repeat 100%N 60] /\
  map (@length char) (clean_lines ascii_isalnum ascii_isdecimal hyphen_line)
    = [120; 120; 60].
Proof.
  apply (@long_line_three_groups ascii_isalnum ascii_isdecimal hyphen_line
           [repeat 97%N 59 ++ [chr_HYPHEN]; repeat 98%N 59 ++ [chr_HYPHEN]] []
           [repeat 99%N 119 ++ [chr_HYPHEN]] []
           [repeat 100%N 60] []);
    vm_compute; reflexivity.
Defined.



Lemma build_tree_one_root_entry_witness :
  exists tree w',
    build_tree traceback_text (root_path (py "/home/u/proj") example_root) empty_world
      = (Val tree, w') /\
    exists root_entry,
      filter (fun e => str_eqb (path e) (py ".")) tree = [root_entry] /\
      size root_entry = 0%Z /\ is_dir root_entry = true.
Proof.
  apply build_tree_one_root_entry; reflexivity.
Defined.

Lemma build_files_text_only_witness :
  exists files,
    build_files ascii_isalnum ascii_isdecimal ascii_lower ascii_decode in_order
      (root_path (py "/home/u/proj") example_root) empty_world
      = (Val files, empty_world) /\
    map file_path files =
      map (@relative_str seconds)
          (filter (@classified_text seconds)
             (in_order (filter (@is_file seconds)
                          (rglob (root_path (py "/home/u/proj") example_root))))) /\
    forall r, In r files ->
      exists p, In p (rglob (root_path (py "/home/u/proj") example_root)) /\
                is_file p = true /\ classified_text p = true /\
                file_path r = relative_str p.
Proof.
  apply build_files_text_only. intros l. apply Permutation_refl.
Defined.

Lemma unknown_format_is_error_witness :
  exists msg w',
    process_and_save seconds_repr ascii_isalnum ascii_isdecimal ascii_lower
      ascii_decode traceback_text example_json_dumps example_yaml_dump
      example_env in_order (py "Local Path") (py "/home/u/proj") None
      (py "Display Tree + Extract Code") (py "PDF") empty_world
      = (Val (None, msg), w') /\
    written w' = written empty_world /\
    (is_prefix (py "Error: ") msg || is_prefix (py "Processing error: ") msg) = true /\
    (str_eqb (py "Local Path") (py "Upload ZIP") = false ->
     forall text D,
       resolve example_env (py "/home/u/proj") = Some (text, D) ->
       is_dir_path (root_path text D) = true ->
       msg = py "Error: Unknown format " ++ py "PDF").
Proof.
  apply unknown_format_is_error.
  intros H. vm_compute in H.
  repeat (destruct H as [H|H]; [discriminate H|]). exact H.
Defined.

Lemma file_count_is_files_length_witness :
  str_contains (py "Extract Code") (py "Display Tree") = false /\
  exists out_path content w',
    example_run = (Val (Some out_path, content), w') /\
    exists tree : list (Entry seconds),
      content = example_json_dumps (Some 2) (report_document tree []) /\
      value_at [py "metadata"; py "directory"; py "file_count"]
               (report_document tree [])
        = Some (VInt 0).
Proof.
  split; [reflexivity|].
  destruct example_run as [[[[out_path|] content]|e] w'] eqn:Hrun;
    try (vm_compute in Hrun; discriminate Hrun).
  exists out_path, content, w'. split; [reflexivity|].
  exact (proj1 (proj2 (file_count_is_files_length seconds_repr ascii_isalnum
                         ascii_isdecimal ascii_lower ascii_decode traceback_text
                         example_json_dumps example_yaml_dump))
           example_env in_order (py "Local Path") (py "/home/u/proj") None
           (py "Display Tree") empty_world w' out_path content eq_refl Hrun).
Defined.

(** * Examples for the further properties *)

Lemma process_and_save_local_run_witness :
  exists (tree : list (Entry seconds)) (w1 : world),
    build_tree traceback_text (root_path (py "/home/u/proj") example_root)
      empty_world = (Val tree, w1) /\
    process_and_save seconds_repr ascii_isalnum ascii_isdecimal ascii_lower
      ascii_decode traceback_text example_json_dumps example_yaml_dump
      example_env in_order (py "Local Path") (py "/home/u/proj") None
      (py "Display Tree") (py "TXT") empty_world
    = (Val (Some (py "/tmp/proj.txt"), export_txt tree []),
       {| stdout := stdout w1; stderr := stderr w1;
          written := written w1 ++ [(py "/tmp/proj.txt", export_txt tree [])] |}).
Proof.
  destruct (build_tree traceback_text (root_path (py "/home/u/proj") example_root)
              empty_world) as [[tree|e] w1] eqn:Htree;
    [|vm_compute in Htree; discriminate Htree].
  exists tree, w1. split; [reflexivity|].
  exact (@process_and_save_local_run seconds seconds_repr ascii_isalnum
           ascii_isdecimal ascii_lower ascii_decode traceback_text
           example_json_dumps example_yaml_dump example_env in_order
           (py "Local Path") (py "/home/u/proj") None (py "Display Tree")
           (py "TXT") empty_world w1 w1 (py "/home/u/proj") example_root
           {| ext := py "txt"; exporter := @export_txt seconds;
              desc := py "Plain text. Quick & simple." |}
           tree [] eq_refl eq_refl eq_refl eq_refl Htree eq_refl).
Defined.

Lemma human_readable_size_whole_units_witness :
  human_readable_size (5 * 1024 ^ Z.of_nat 3) =
  str_of_Z 5 ++ py ".0" ++ nth 3 unit_names [] ++ py "B".
Proof.
  apply human_readable_size_whole_units; lia.
Defined.

Lemma export_jsonl_one_line_each_witness :
  count_char chr_LF (export_jsonl example_json_dumps example_tree example_files) + 1
  = length example_tree + length example_files.
Proof.
  refine (proj2 (@export_jsonl_one_line_each seconds example_json_dumps
                   example_tree example_files _ _) _).
  - repeat (constructor; [vm_compute; reflexivity|]); constructor.
  - repeat (constructor; [vm_compute; reflexivity|]); constructor.
  - vm_compute. repeat constructor.
Defined.

Lemma build_tree_lists_readable_entries_witness :
  exists tree,
    build_tree traceback_text (root_path (py "/home/u/proj") example_root) empty_world
    = (Val tree,
       {| stdout := stdout empty_world ++
                    map (@skip_message seconds)
                        (filter (fun p => negb (stat_ok p))
                           (rglob (root_path (py "/home/u/proj") example_root)));
          stderr := stderr empty_world; written := written empty_world |}) /\
    map (@path seconds) tree =
      py "." :: map (@relative_str seconds)
                  (filter (@stat_ok seconds)
                     (rglob (root_path (py "/home/u/proj") example_root))) /\
    Forall (fun e => hr_size e = human_readable_size (size e)) tree.
Proof.
  apply (@build_tree_lists_readable_entries seconds traceback_text
           (root_path (py "/home/u/proj") example_root) empty_world
           {| st_size := 4096; st_mtime := 1700000000%Z |}).
  reflexivity.
Defined.

Lemma build_tree_unreadable_root_witness :
  build_tree traceback_text (root_path (py "/srv/vault") unreadable_root) empty_world
  = (Val [],
     {| stdout := stdout empty_world ++
                  [py "Error building tree: " ++ py "Permission denied"];
        stderr := stderr empty_world ++ [traceback_text (py "Permission denied")];
        written := written empty_world |}).
Proof.
  apply build_tree_unreadable_root. reflexivity.
Defined.

Lemma build_files_order_insensitive_witness :
  exists files files',
    build_files ascii_isalnum ascii_isdecimal ascii_lower ascii_decode in_order
      (root_path (py "/home/u/proj") example_root) empty_world
      = (Val files, empty_world) /\
    build_files ascii_isalnum ascii_isdecimal ascii_lower ascii_decode last_first
      (root_path (py "/home/u/proj") example_root) empty_world
      = (Val files', empty_world) /\
    Permutation files files'.
Proof.
  apply build_files_order_insensitive.
  - intros l. apply Permutation_refl.
  - intros l. apply Permutation_sym, Permutation_rev.
Defined.

Lemma normalize_drops_final_line_feed_witness :
  splitlines (py "ab" ++ [chr_LF]) = splitlines (py "ab") /\
  normalize ascii_isalnum ascii_isdecimal (py "ab" ++ [chr_LF])
    = normalize ascii_isalnum ascii_isdecimal (py "ab").
Proof.
  apply normalize_drops_final_line_feed. reflexivity.
Defined.


Lemma zip_upload_errors_witness :
  process_and_save seconds_repr ascii_isalnum ascii_isdecimal ascii_lower
    ascii_decode traceback_text example_json_dumps example_yaml_dump
    example_env in_order (py "Upload ZIP") (py "/home/u/proj")
    (Some (Raise (py "File is not a zip file")))
    (py "Display Tree") (py "TXT") empty_world
  = (Val (None,
          py "Processing error: " ++ py "File is not a zip file" ++ [chr_LF] ++
          traceback_text (py "File is not a zip file")), empty_world).
Proof.
  apply (@zip_upload_errors seconds seconds_repr ascii_isalnum ascii_isdecimal
           ascii_lower ascii_decode traceback_text example_json_dumps
           example_yaml_dump example_env in_order (py "Upload ZIP")
           (py "/home/u/proj") (Some (py "File is not a zip file"))).
  reflexivity.
Defined.

Lemma zip_upload_like_local_path_witness :
  process_and_save seconds_repr ascii_isalnum ascii_isdecimal ascii_lower
    ascii_decode traceback_text example_json_dumps example_yaml_dump
    example_env in_order (py "Upload ZIP") (py "")
    (Some (Val (py "/home/u/proj", example_root)))
    (py "Display Tree") (py "TXT") empty_world
  = process_and_save seconds_repr ascii_isalnum ascii_isdecimal ascii_lower
      ascii_decode traceback_text example_json_dumps example_yaml_dump
      example_env in_order (py "Local Path") (py "/home/u/proj") None
      (py "Display Tree") (py "TXT") empty_world.
Proof.
  apply zip_upload_like_local_path; reflexivity.
Defined.
